(** * goproxy server command: a shallow embedding of
    [cmd/goproxy/internal/server_cmd.go] and the properties of its
    handler chain, outbound transport, local file system and supervisor.

    Go values are modelled as the code has them: strings are byte strings
    ([string] of [ascii]), a [time.Duration] is a signed 64-bit count of
    nanoseconds (an integer that is only compared with zero here, so no
    arithmetic can wrap), a possibly-nil [error] is an [option error],
    and code that writes to shared objects or may panic runs in the
    [Go] monad below. *)

From stdpp Require Import base strings list gmap.
From Stdlib Require Import ZArith Ascii String Lia.

Local Open Scope Z_scope.

(** ** Byte strings, as package [strings] handles them *)

Module strings.

(** [len(s)] *)
Definition len (s : string) : nat := String.length s.

(** [s[n:]]; out of range ([n > len(s)]) is a run-time panic: [None]. *)
Fixpoint slice_from (s : string) (n : nat) {struct n} : option string :=
  match n, s with
  | O, _ => Some s
  | S _, EmptyString => None
  | S n', String _ s' => slice_from s' n'
  end.

(** [s[:n]] for [n <= len(s)] (the callers below guard the length). *)
Fixpoint slice_to (s : string) (n : nat) {struct n} : string :=
  match n, s with
  | S n', String c s' => String c (slice_to s' n')
  | _, _ => EmptyString
  end.

(** [strings.HasPrefix]:
    [len(s) >= len(prefix) && s[:len(prefix)] == prefix]. *)
Definition HasPrefix (s prefix : string) : bool :=
  (len prefix <=? len s)%nat && String.eqb (slice_to s (len prefix)) prefix.

(** [strings.TrimPrefix]: [s[len(prefix):]] when [HasPrefix], else [s]. *)
Definition TrimPrefix (s prefix : string) : string :=
  if HasPrefix s prefix
  then default s (slice_from s (len prefix))
  else s.

(** [strings.ReplaceAll] for a one-byte pattern and replacement. *)
Fixpoint ReplaceByte (s : string) (old new : ascii) : string :=
  match s with
  | EmptyString => EmptyString
  | String c s' =>
      String (if Ascii.eqb c old then new else c) (ReplaceByte s' old new)
  end.

End strings.

(** ** Errors, package [errors] *)

Inductive error : Type :=
| ErrServerClosed                           (* http.ErrServerClosed *)
| errorString (s : string)                  (* errors.New(s) *)
| wrapError (msg : string) (err : error).   (* a wrapper with Unwrap *)

Global Instance error_eq_dec : EqDecision error.
Proof. solve_decision. Defined.

Module errors.

Definition New (s : string) : error := errorString s.

(** [errors.Is]: walk the Unwrap chain comparing with [target]. *)
Fixpoint Is (err target : error) : bool :=
  bool_decide (err = target) ||
  match err with
  | wrapError _ inner => Is inner target
  | _ => false
  end.

End errors.

(** ** Durations and contexts, packages [time] and [context] *)

Definition Duration := Z.

Module time.
Definition Second : Duration := 1000000000.
Definition Minute : Duration := 60 * Second.
End time.

(** A [CancelFunc] is identified by the number of the timer it stops. *)
Definition CancelFunc := nat.

Inductive Context : Type :=
| Background                                  (* context.Background() *)
| external (n : nat)                          (* made outside this file:
                                                 cmd.Context(), the server's
                                                 per-request context *)
| timerCtx (id : CancelFunc) (parent : Context) (timeout : Duration).

Global Instance Context_eq_dec : EqDecision Context.
Proof. solve_decision. Defined.

(** The timeout a context was derived with, if it was. *)
Definition timeoutOf (c : Context) : option Duration :=
  match c with
  | timerCtx _ _ d => Some d
  | _ => None
  end.

Definition parentOf (c : Context) : option Context :=
  match c with
  | timerCtx _ p _ => Some p
  | _ => None
  end.

(** ** The process state and the [Go] monad *)

Definition ResponseWriter := nat.

Record Response := mkResponse { status : Z; body : string }.

Record FileNode := mkFileNode { contents : string; readable : bool }.

(** An open read handle: the file it names and the bytes it yields. *)
Record File := mkFile { fileName : string; fileBytes : string }.

(** What the code below can write to (real time is not modelled: a timer
    context is [pending] from its creation until its [CancelFunc] runs). *)
Record World := mkWorld {
  nextTimer : nat;
  pending : gset nat;                   (* timers armed and not cancelled *)
  cancelled : list nat;                 (* calls of a CancelFunc, latest first *)
  responses : gmap nat Response;        (* what each ResponseWriter received *)
  files : gmap string FileNode;         (* the local file system *)
  opened : list string                  (* os.Open calls, latest first *)
}.

Inductive Result (A : Type) : Type :=
| Done (a : A)
| Panic (v : string).
Arguments Done {A} a.
Arguments Panic {A} v.

Definition Go (A : Type) : Type := World → Result A * World.

Definition ret {A} (a : A) : Go A := λ w, (Done a, w).

Definition panic {A} (v : string) : Go A := λ w, (Panic v, w).

(** Sequencing: a panic unwinds through the rest of the function. *)
Definition bind {A B} (m : Go A) (k : A → Go B) : Go B :=
  λ w, match m w with
       | (Done a, w') => k a w'
       | (Panic v, w') => (Panic v, w')
       end.

Global Instance Go_ret : MRet Go := @ret.
Global Instance Go_bind : MBind Go := λ A B k m, bind m k.

Module context.

(** The function returned as [cancel]. *)
Definition cancel (id : CancelFunc) : Go unit :=
  λ w, (Done tt,
        mkWorld (nextTimer w) (pending w ∖ {[id]}) (id :: cancelled w)
                (responses w) (files w) (opened w)).

(** [context.WithTimeout(parent, d)]: a child of [parent] and its
    [CancelFunc]. With [d <= 0] the child is born expired and holds no
    timer. *)
Definition WithTimeout (parent : Context) (d : Duration)
  : Go (Context * CancelFunc) :=
  λ w, let id := nextTimer w in
       (Done (timerCtx id parent d, id),
        mkWorld (S id)
                (if 0 <? d then {[id]} ∪ pending w else pending w)
                (cancelled w) (responses w) (files w) (opened w)).

End context.

(** ** Package [net/http]: requests, handlers, StripPrefix *)

Record Request := mkRequest {
  Path : string;        (* r.URL.Path *)
  RawPath : string;     (* r.URL.RawPath *)
  reqContext : Context  (* r.Context() *)
}.

Definition WithContext (r : Request) (ctx : Context) : Request :=
  mkRequest (Path r) (RawPath r) ctx.

(** [http.Handler]: [ServeHTTP(rw, req)]. *)
Definition Handler := ResponseWriter → Request → Go unit.

Module http.

Definition StatusNotFound : Z := 404.

(** [http.Error(w, msg, code)] as far as the reply goes. *)
Definition Error (rw : ResponseWriter) (msg : string) (code : Z) : Go unit :=
  λ w, (Done tt,
        mkWorld (nextTimer w) (pending w) (cancelled w)
                (<[rw := mkResponse code (msg +:+ String "010" EmptyString)]> (responses w))
                (files w) (opened w)).

Definition NotFound : Handler :=
  λ rw _, Error rw "404 page not found" StatusNotFound.

(** [http.StripPrefix(prefix, h)]. *)
Definition StripPrefix (prefix : string) (h : Handler) : Handler :=
  if bool_decide (prefix = EmptyString) then h
  else λ rw r,
    let p := strings.TrimPrefix (Path r) prefix in
    let rp := strings.TrimPrefix (RawPath r) prefix in
    if (strings.len p <? strings.len (Path r))%nat
       && (bool_decide (RawPath r = EmptyString)
           || (strings.len rp <? strings.len (RawPath r))%nat)
    then h rw (mkRequest p rp (reqContext r))
    else NotFound rw r.

End http.

(** ** The server command *)

(** [serverCmdConfig], the configuration of the server command. *)
Record serverCmdConfig := mkServerCmdConfig {
  address : string;
  tlsCertFile : string;
  tlsKeyFile : string;
  pathPrefix : string;
  goBinName : string;
  maxDirectFetches : Z;
  proxiedSUMDBs : list string;
  cacheDir : string;
  tempDir : string;
  insecure : bool;
  connectTimeout : Duration;
  fetchTimeout : Duration;
  shutdownTimeout : Duration
}.

(** The closure of [runServerCmd] that bounds each request by the fetch
    timeout: derive the context, serve, then call [cancel] (a plain call
    after [ServeHTTP], not a deferred one). *)
Definition fetchTimeoutHandler (fetchTimeout : Duration) (h : Handler) : Handler :=
  λ rw req,
    '(ctx, cancel) ← context.WithTimeout (reqContext req) fetchTimeout;
    h rw (WithContext req ctx);;
    context.cancel cancel.

(** [handler] after the path-prefix statement of [runServerCmd], built
    around the proxy handler [g]. *)
Definition prefixedHandler (cfg : serverCmdConfig) (g : Handler) : Handler :=
  let handler := g in
  if bool_decide (pathPrefix cfg ≠ EmptyString)
  then http.StripPrefix (pathPrefix cfg) handler
  else handler.

(** [handler] after the fetch-timeout statement: what [runServerCmd]
    installs in the server. *)
Definition serverHandler (cfg : serverCmdConfig) (g : Handler) : Handler :=
  let handler := prefixedHandler cfg g in
  if 0 <? fetchTimeout cfg
  then fetchTimeoutHandler (fetchTimeout cfg) handler
  else handler.

(** ** The outbound transport *)

(** [net.Dialer], the two fields the command sets. *)
Record Dialer := mkDialer { Timeout : Duration; KeepAlive : Duration }.

(** [tls.Config], the field the command sets. *)
Record tlsConfig := mkTlsConfig { InsecureSkipVerify : bool }.

(** [httpDirFS], an empty struct implementing [http.FileSystem]. *)
Inductive FileSystem : Type := httpDirFS.

Inductive RoundTripper : Type :=
| NewFileTransport (fs : FileSystem).       (* http.NewFileTransport(fs) *)

(** [http.Transport]: [DialContext] holds the dialer whose method value
    is installed; [altProto] is the table [RegisterProtocol] fills. *)
Record Transport := mkTransport {
  DialContext : Dialer;
  TLSClientConfig : option tlsConfig;
  ForceAttemptHTTP2 : bool;
  MaxIdleConns : Z;
  IdleConnTimeout : Duration;
  TLSHandshakeTimeout : Duration;
  ExpectContinueTimeout : Duration;
  altProto : gmap string RoundTripper
}.

(** [http.DefaultTransport] as package [net/http] initialises it. *)
Definition DefaultTransport : Transport :=
  mkTransport (mkDialer (30 * time.Second) (30 * time.Second)) None true 100
              (90 * time.Second) (10 * time.Second) (1 * time.Second) ∅.

(** [t.Clone()]: a copy of the exported fields; the clone starts with no
    protocol registered. *)
Definition Clone (t : Transport) : Transport :=
  mkTransport (DialContext t) (TLSClientConfig t) (ForceAttemptHTTP2 t)
              (MaxIdleConns t) (IdleConnTimeout t) (TLSHandshakeTimeout t)
              (ExpectContinueTimeout t) ∅.

(** [t.RegisterProtocol(scheme, rt)]: panics when [scheme] is taken. *)
Definition RegisterProtocol (t : Transport) (scheme : string) (rt : RoundTripper)
  : Go Transport :=
  match altProto t !! scheme with
  | Some _ => panic ("protocol " +:+ scheme +:+ " already registered")
  | None =>
      mret (mkTransport (DialContext t) (TLSClientConfig t) (ForceAttemptHTTP2 t)
                        (MaxIdleConns t) (IdleConnTimeout t)
                        (TLSHandshakeTimeout t) (ExpectContinueTimeout t)
                        (<[scheme := rt]> (altProto t)))
  end.

(** The first four statements of [runServerCmd]. *)
Definition serverTransport (cfg : serverCmdConfig) : Go Transport :=
  let transport := Clone DefaultTransport in
  let transport :=
    mkTransport (mkDialer (connectTimeout cfg) (30 * time.Second))
                (TLSClientConfig transport) (ForceAttemptHTTP2 transport)
                (MaxIdleConns transport) (IdleConnTimeout transport)
                (TLSHandshakeTimeout transport)
                (ExpectContinueTimeout transport) (altProto transport) in
  let transport :=
    mkTransport (DialContext transport) (Some (mkTlsConfig (insecure cfg)))
                (ForceAttemptHTTP2 transport)
                (MaxIdleConns transport) (IdleConnTimeout transport)
                (TLSHandshakeTimeout transport)
                (ExpectContinueTimeout transport) (altProto transport) in
  RegisterProtocol transport "file" (NewFileTransport httpDirFS).

(** ** The local file system, [httpDirFS.Open] *)

(** What [path/filepath] provides on the host platform. These functions
    belong to the Go standard library; [Open] is verified for every
    platform, and the two instances below run it on concrete paths. *)
Record Platform := mkPlatform {
  Separator : ascii;                (* filepath.Separator *)
  VolumeName : string → string;     (* filepath.VolumeName *)
  IsAbs : string → bool             (* filepath.IsAbs *)
}.

Definition backslash : ascii := "\"%char.
Definition slash : ascii := "/"%char.

(** The first two bytes of the volume name of a network share. *)
Definition uncPrefix : string := String backslash (String backslash EmptyString).

Module filepath.

(** [filepath.FromSlash]: every slash becomes the separator. *)
Definition FromSlash (P : Platform) (path : string) : string :=
  if Ascii.eqb (Separator P) slash then path
  else strings.ReplaceByte path slash (Separator P).

End filepath.

Module os.

(** [os.Open(name)]: a read handle on the named file, or the error of
    the file system. Every call is recorded in [opened]. *)
Definition Open (name : string) : Go (File + error) :=
  λ w,
    let w' := mkWorld (nextTimer w) (pending w) (cancelled w) (responses w)
                      (files w) (name :: opened w) in
    match files w !! name with
    | Some node =>
        if readable node
        then (Done (inl (mkFile name (contents node))), w')
        else (Done (inr (wrapError ("open " +:+ name)
                                   (errorString "permission denied"))), w')
    | None =>
        (Done (inr (wrapError ("open " +:+ name)
                              (errorString "no such file or directory"))), w')
    end.

End os.

Section LocalFiles.

Variable P : Platform.

(** The tail of [Open], from the [IsAbs] test on. *)
Definition openAbsolute (name : string) : Go (File + error) :=
  if negb (IsAbs P name)
  then mret (inr (errors.New "path is not absolute"))
  else os.Open name.

(** [httpDirFS.Open]. *)
Definition Open (name : string) : Go (File + error) :=
  let name := filepath.FromSlash P name in
  if Ascii.eqb (Separator P) backslash then
    match strings.slice_from name 1 with
    | None => panic "slice bounds out of range [1:0]"
    | Some name =>
        let volumeName := VolumeName P name in
        if bool_decide (volumeName = EmptyString)
           || strings.HasPrefix volumeName uncPrefix
        then mret (inr (errors.New "file URL missing drive letter"))
        else openAbsolute name
    end
  else openAbsolute name.

(** The name [Open] goes on to test and open: the converted path, less
    its first byte where the separator is a backslash. *)
Definition resolved (name : string) : option string :=
  let name := filepath.FromSlash P name in
  if Ascii.eqb (Separator P) backslash
  then strings.slice_from name 1
  else Some name.

End LocalFiles.

(** ** Two host platforms *)

(** Package [path/filepath] on Unix: no volume names, and a path is
    absolute when it starts with a slash. *)
Module unix.

Definition IsAbs (path : string) : bool := strings.HasPrefix path "/".

Definition platform : Platform := mkPlatform slash (λ _, EmptyString) IsAbs.

End unix.

(** Package [path/filepath] on Windows (drive letters, UNC shares and
    device paths), following the standard library's [path_windows.go]. *)
Module windows.

Definition isSlash (c : ascii) : bool :=
  Ascii.eqb c backslash || Ascii.eqb c slash.

Definition toUpper (c : ascii) : ascii :=
  let n := nat_of_ascii c in
  if ((97 <=? n) && (n <=? 122))%nat then ascii_of_nat (n - 32) else c.

(** [s[i]], read only below [len(s)]. *)
Definition byteAt (s : string) (i : nat) : ascii :=
  default Ascii.zero (String.get i s).

(** [pathHasPrefixFold]: [s] starts with [prefix], ignoring case and
    the kind of separator, and the prefix ends at a separator of [s]. *)
Fixpoint pathHasPrefixFold (s prefix : string) : bool :=
  match prefix, s with
  | EmptyString, EmptyString => true
  | EmptyString, String c _ => isSlash c
  | String _ _, EmptyString => false
  | String p prefix', String c s' =>
      (if isSlash p then isSlash c else Ascii.eqb (toUpper p) (toUpper c))
      && pathHasPrefixFold s' prefix'
  end.

(** The loop of [uncLen], at index [i] with [count] separators seen. *)
Fixpoint uncScan (rest : string) (i count : nat) : nat :=
  match rest with
  | EmptyString => i
  | String c rest' =>
      if isSlash c
      then if (count =? 1)%nat then i else uncScan rest' (S i) (S count)
      else uncScan rest' (S i) count
  end.

Definition uncLen (path : string) (prefixLen : nat) : nat :=
  match strings.slice_from path prefixLen with
  | Some rest => uncScan rest prefixLen 0
  | None => strings.len path
  end.

(** [cutPath]: what follows the first separator, if there is one. *)
Fixpoint cutPath (path : string) : option string :=
  match path with
  | EmptyString => None
  | String c path' => if isSlash c then Some path' else cutPath path'
  end.

Definition volumeNameLen (path : string) : nat :=
  let n := strings.len path in
  if ((2 <=? n)%nat && Ascii.eqb (byteAt path 1) ":"%char) then 2%nat
  else if ((n =? 0)%nat || negb (isSlash (byteAt path 0))) then 0%nat
  else if pathHasPrefixFold path "\\.\UNC" then uncLen path 8
  else if pathHasPrefixFold path "\\."
          || pathHasPrefixFold path "\\?"
          || pathHasPrefixFold path "\??" then
    if (n =? 3)%nat then 3%nat
    else match cutPath (default EmptyString (strings.slice_from path 4)) with
         | None => n
         | Some rest => (n - strings.len rest - 1)%nat
         end
  else if ((2 <=? n)%nat && isSlash (byteAt path 1)) then uncLen path 2
  else 0%nat.

Definition FromSlash (path : string) : string :=
  strings.ReplaceByte path slash backslash.

Definition VolumeName (path : string) : string :=
  FromSlash (strings.slice_to path (volumeNameLen path)).

Definition IsAbs (path : string) : bool :=
  let l := volumeNameLen path in
  if (l =? 0)%nat then false
  else if isSlash (byteAt path 0) && isSlash (byteAt path 1) then true
  else match strings.slice_from path l with
       | Some (String c _) => isSlash c
       | _ => false
       end.

Definition platform : Platform := mkPlatform backslash VolumeName IsAbs.

End windows.

(** ** The supervisor: [runServerCmd] from [signal.NotifyContext] on *)

(** The test of [serverError] after the wait:
    [serverError != nil && !errors.Is(serverError, http.ErrServerClosed)]. *)
Definition isFatal (serverError : option error) : bool :=
  match serverError with
  | Some e => negb (errors.Is e ErrServerClosed)
  | None => false
  end.

(** The context handed to [server.Shutdown], with the [cancel] that is
    deferred when a timeout is set. *)
Definition shutdownContext (cfg : serverCmdConfig)
  : Go (Context * option CancelFunc) :=
  let shutdownCtx := Background in
  if 0 <? shutdownTimeout cfg then
    '(shutdownCtx, cancel) ← context.WithTimeout shutdownCtx (shutdownTimeout cfg);
    mret (shutdownCtx, Some cancel)
  else mret (shutdownCtx, None).

(** Calls on the server and on [stop], as they happen. *)
Inductive Event : Type :=
| evListenAndServe
| evListenAndServeTLS (certFile keyFile : string)
| evShutdown (ctx : Context)
| evStop.

(** Where the foreground of [runServerCmd] stands. *)
Inductive MainPC : Type :=
| mStart                                    (* at the [go] statement *)
| mWait                                     (* blocked in <-stopCtx.Done() *)
| mCheck                                    (* at the test of serverError *)
| mShutdown                                 (* past the test, at shutdownCtx *)
| mInShutdown (ctx : Context) (cancel : option CancelFunc)
                                            (* inside server.Shutdown(ctx) *)
| mReturned (r : option error)              (* returned r *)
| mPanicked (v : string).

(** Where the serving goroutine stands. *)
Inductive GoPC : Type :=
| gIdle                                     (* not spawned yet *)
| gStart                                    (* at the test of the TLS files *)
| gServing                                  (* inside ListenAndServe[TLS] *)
| gAssigned                                 (* serverError written, at stop() *)
| gDone.

Record State := mkState {
  mainPC : MainPC;
  goPC : GoPC;
  serverError : option error;       (* the variable shared by both *)
  stopDone : bool;                  (* stopCtx.Done() is closed *)
  signalled : bool;                 (* a signal or the parent closed it *)
  observed : option (option error); (* what the foreground read at its test *)
  trace : list Event;               (* latest first *)
  world : World
}.

(** What moves the program: the scheduler picks a thread, or the
    environment delivers a signal or makes a blocking call return. *)
Inductive Action : Type :=
| aMain
| aGo
| aServeReturns (e : error)
| aShutdownReturns (r : option error)
| aSignal.

Definition init (w : World) : State :=
  mkState mStart gIdle None false false None [] w.

Definition stepMain (cfg : serverCmdConfig) (s : State) : option State :=
  match mainPC s with
  | mStart =>
      Some (mkState mWait gStart (serverError s) (stopDone s) (signalled s)
                    (observed s) (trace s) (world s))
  | mWait =>
      if stopDone s
      then Some (mkState mCheck (goPC s) (serverError s) (stopDone s)
                         (signalled s) (observed s) (trace s) (world s))
      else None
  | mCheck =>
      if isFatal (serverError s)
      then Some (mkState (mReturned (serverError s)) (goPC s) (serverError s)
                         true (signalled s) (Some (serverError s))
                         (evStop :: trace s) (world s))
      else Some (mkState mShutdown (goPC s) (serverError s) (stopDone s)
                         (signalled s) (Some (serverError s)) (trace s) (world s))
  | mShutdown =>
      match shutdownContext cfg (world s) with
      | (Done (ctx, cancel), w') =>
          Some (mkState (mInShutdown ctx cancel) (goPC s) (serverError s)
                        (stopDone s) (signalled s) (observed s)
                        (evShutdown ctx :: trace s) w')
      | (Panic v, w') =>
          Some (mkState (mPanicked v) (goPC s) (serverError s) true
                        (signalled s) (observed s) (evStop :: trace s) w')
      end
  | mInShutdown _ _ | mReturned _ | mPanicked _ => None
  end.

Definition stepGo (cfg : serverCmdConfig) (s : State) : option State :=
  match goPC s with
  | gStart =>
      let call :=
        if bool_decide (tlsCertFile cfg ≠ EmptyString)
           && bool_decide (tlsKeyFile cfg ≠ EmptyString)
        then evListenAndServeTLS (tlsCertFile cfg) (tlsKeyFile cfg)
        else evListenAndServe in
      Some (mkState (mainPC s) gServing (serverError s) (stopDone s)
                    (signalled s) (observed s) (call :: trace s) (world s))
  | gAssigned =>
      Some (mkState (mainPC s) gDone (serverError s) true (signalled s)
                    (observed s) (evStop :: trace s) (world s))
  | gIdle | gServing | gDone => None
  end.

(** The deferred calls of the path through [server.Shutdown]. *)
Definition runDeferred (cancel : option CancelFunc) (w : World) : World :=
  match cancel with
  | Some c => snd (context.cancel c w)
  | None => w
  end.

Definition step (cfg : serverCmdConfig) (s : State) (a : Action) : option State :=
  match a with
  | aMain => stepMain cfg s
  | aGo => stepGo cfg s
  | aServeReturns e =>
      match goPC s with
      | gServing =>
          Some (mkState (mainPC s) gAssigned (Some e) (stopDone s) (signalled s)
                        (observed s) (trace s) (world s))
      | _ => None
      end
  | aShutdownReturns r =>
      match mainPC s with
      | mInShutdown _ cancel =>
          Some (mkState (mReturned r) (goPC s) (serverError s) true
                        (signalled s) (observed s) (evStop :: trace s)
                        (runDeferred cancel (world s)))
      | _ => None
      end
  | aSignal =>
      Some (mkState (mainPC s) (goPC s) (serverError s) true true
                    (observed s) (trace s) (world s))
  end.

Fixpoint exec (cfg : serverCmdConfig) (s : State) (schedule : list Action)
  : option State :=
  match schedule with
  | [] => Some s
  | a :: rest =>
      match step cfg s a with
      | Some s' => exec cfg s' rest
      | None => None
      end
  end.

(** A supervised run: the state [runServerCmd] reaches under a schedule,
    if the schedule is one the program can follow. *)
Definition runServerCmd (cfg : serverCmdConfig) (w : World)
  (schedule : list Action) : option State :=
  exec cfg (init w) schedule.

(** The contexts [server.Shutdown] was called with. *)
Fixpoint shutdownsIn (tr : list Event) : list Context :=
  match tr with
  | [] => []
  | evShutdown ctx :: tr' => ctx :: shutdownsIn tr'
  | _ :: tr' => shutdownsIn tr'
  end.

Definition shutdownCalls (s : State) : list Context := shutdownsIn (trace s).

(** What [runServerCmd] returned, once it has. *)
Definition returned (s : State) : option (option error) :=
  match mainPC s with
  | mReturned r => Some r
  | _ => None
  end.

(** The foreground is past its wait on [stopCtx.Done()]. *)
Definition pastWait (pc : MainPC) : bool :=
  match pc with
  | mStart | mWait => false
  | _ => true
  end.

(** The goroutine has assigned [serverError]. *)
Definition hasAssigned (pc : GoPC) : bool :=
  match pc with
  | gAssigned | gDone => true
  | _ => false
  end.

(** The context the configuration prescribes for [server.Shutdown]. *)
Definition prescribed (cfg : serverCmdConfig) (ctx : Context) : Prop :=
  if 0 <? shutdownTimeout cfg
  then parentOf ctx = Some Background ∧ timeoutOf ctx = Some (shutdownTimeout cfg)
  else ctx = Background.

(** What holds of the foreground at each of its program points. *)
Definition mainInvariant (cfg : serverCmdConfig) (s : State) : Prop :=
  match mainPC s with
  | mStart => goPC s = gIdle ∧ observed s = None ∧ shutdownCalls s = []
  | mWait | mCheck => observed s = None ∧ shutdownCalls s = []
  | mShutdown =>
      ∃ v, observed s = Some v ∧ isFatal v = false ∧ shutdownCalls s = []
  | mInShutdown ctx _ =>
      ∃ v, observed s = Some v ∧ isFatal v = false
           ∧ shutdownCalls s = [ctx] ∧ prescribed cfg ctx
  | mReturned r =>
      ∃ v, observed s = Some v
           ∧ if isFatal v
             then r = v ∧ shutdownCalls s = []
             else ∃ ctx, shutdownCalls s = [ctx] ∧ prescribed cfg ctx
  | mPanicked _ => False
  end.

(** The invariant of the supervisor. *)
Record invariant (cfg : serverCmdConfig) (s : State) : Prop := mkInvariant {
  inv_assigned : is_Some (serverError s) ↔ hasAssigned (goPC s) = true;
  inv_stop :
    signalled s = false →
    stopDone s = true ∨ pastWait (mainPC s) = true →
    goPC s = gDone;
  inv_observed :
    signalled s = false → ∀ v, observed s = Some v → serverError s = v;
  inv_main : mainInvariant cfg s
}.

(** ** Concrete inputs used to run the definitions *)

Definition emptyWorld : World := mkWorld 0 ∅ [] ∅ ∅ [].

(** A file system holding one readable module file under a drive letter
    and one under a Unix root. *)
Definition diskWorld : World :=
  mkWorld 0 ∅ [] ∅
          (<["C:\mod\go.mod" := mkFileNode "module example.com/m" true]>
             (<["/mod/go.mod" := mkFileNode "module example.com/m" true]> ∅))
          [].

(** Requests: for [/other], for [/mod/info] (with the background context
    and with a context of the server), for [/proxy/mod/info], and for
    [/%70roxy/mod/info], which decodes to the same path. *)
Definition otherRequest : Request := mkRequest "/other" EmptyString Background.
Definition infoRequest : Request := mkRequest "/mod/info" EmptyString Background.
Definition proxiedRequest : Request :=
  mkRequest "/proxy/mod/info" EmptyString Background.
Definition escapedRequest : Request :=
  mkRequest "/proxy/mod/info" "/%70roxy/mod/info" Background.

(** The body of the reply of [http.NotFound]. *)
Definition notFoundBody : string :=
  "404 page not found" +:+ String "010" EmptyString.

(** A proxy handler that replies 200 with the path it was given. *)
Definition echoPath : Handler := λ rw r, http.Error rw (Path r) 200.

(** A proxy handler that panics. *)
Definition panicking : Handler := λ _ _, panic "boom".

Definition defaultConfig : serverCmdConfig :=
  mkServerCmdConfig "localhost:8080" EmptyString EmptyString EmptyString
                    "go" 0 [] "caches" "/tmp" false
                    (30 * time.Second) (10 * time.Minute) (10 * time.Second).

(** The defaults with a path prefix and without a fetch timeout. *)
Definition proxyConfig : serverCmdConfig :=
  mkServerCmdConfig "localhost:8080" EmptyString EmptyString "/proxy"
                    "go" 0 [] "caches" "/tmp" false
                    (30 * time.Second) 0 (10 * time.Second).

(** The defaults with negative fetch and shutdown timeouts. *)
Definition negativeConfig : serverCmdConfig :=
  mkServerCmdConfig "localhost:8080" EmptyString EmptyString EmptyString
                    "go" 0 [] "caches" "/tmp" false
                    (30 * time.Second) (-5 * time.Second) (-1 * time.Second).


Definition errAddrInUse : error :=
  wrapError "listen tcp 127.0.0.1:8080" (errorString "bind: address already in use").

(** The serve loop fails to bind before any signal arrives. *)
Definition bindFailure : list Action :=
  [aMain; aGo; aServeReturns errAddrInUse; aGo; aMain; aMain].

(** A signal ends the wait; the server is shut down and the serve loop
    returns [ErrServerClosed]. *)
Definition signalThenShutdown : list Action :=
  [aMain; aGo; aSignal; aMain; aMain; aMain;
   aServeReturns ErrServerClosed; aGo; aShutdownReturns None].

(** ** The flag defaults, the serve calls and the world of a run *)

(** [newServerCmdConfig]: the configuration as the flag set declares it,
    every field at the default of its flag; [osTempDir] stands for
    [os.TempDir()]. *)
Definition newServerCmdConfig (osTempDir : string) : serverCmdConfig :=
  mkServerCmdConfig "localhost:8080" EmptyString EmptyString EmptyString
                    "go" 0 [] "caches" osTempDir false
                    (30 * time.Second) (10 * time.Minute) (10 * time.Second).

(** The calls of [ListenAndServe] and [ListenAndServeTLS] in a trace. *)
Fixpoint listensIn (tr : list Event) : list Event :=
  match tr with
  | [] => []
  | evListenAndServe :: tr' => evListenAndServe :: listensIn tr'
  | evListenAndServeTLS certFile keyFile :: tr' =>
      evListenAndServeTLS certFile keyFile :: listensIn tr'
  | _ :: tr' => listensIn tr'
  end.

(** The serve call the configuration selects. *)
Definition selectsServe (cfg : serverCmdConfig) (ev : Event) : Prop :=
  (tlsCertFile cfg ≠ EmptyString ∧ tlsKeyFile cfg ≠ EmptyString
   ∧ ev = evListenAndServeTLS (tlsCertFile cfg) (tlsKeyFile cfg))
  ∨ ((tlsCertFile cfg = EmptyString ∨ tlsKeyFile cfg = EmptyString)
     ∧ ev = evListenAndServe).

(** The serve calls made so far, by the program point of the goroutine. *)
Definition listenInvariant (cfg : serverCmdConfig) (s : State) : Prop :=
  match goPC s with
  | gIdle | gStart => listensIn (trace s) = []
  | _ => ∃ ev, listensIn (trace s) = [ev] ∧ selectsServe cfg ev
  end.



(** A signal arrives first; the serve loop returns [e] between the
    foreground's test of [serverError] and its call of [Shutdown]. *)
Definition errorAfterTest (e : error) : list Action :=
  [aMain; aGo; aSignal; aMain; aMain; aServeReturns e; aGo; aMain;
   aShutdownReturns None].

(** A way to the end from the test of [serverError]. *)
Definition finishFromCheck (s : State) : list Action :=
  if isFatal (serverError s) then [aMain]
  else [aMain; aMain; aShutdownReturns None].

(** A way to the end from any program point of the foreground: a signal
    where it waits, and [Shutdown] returning nil where it is called. *)
Definition finish (s : State) : list Action :=
  match mainPC s with
  | mStart => aMain :: aSignal :: aMain :: finishFromCheck s
  | mWait => aSignal :: aMain :: finishFromCheck s
  | mCheck => finishFromCheck s
  | mShutdown => [aMain; aShutdownReturns None]
  | mInShutdown _ _ => [aShutdownReturns None]
  | mReturned _ | mPanicked _ => []
  end.

(** An ASCII letter. *)
Definition isLetter (c : ascii) : bool :=
  let n := nat_of_ascii c in
  ((65 <=? n) && (n <=? 90))%nat || ((97 <=? n) && (n <=? 122))%nat.

(** The serve loop returns [ErrServerClosed] wrapped by its caller. *)
Definition errWrappedClosed : error :=
  wrapError "serve" (wrapError "accept" ErrServerClosed).

(** The serve loop ends with a wrapped [ErrServerClosed] and no signal. *)
Definition closedThenShutdown : list Action :=
  [aMain; aGo; aServeReturns errWrappedClosed; aGo; aMain; aMain; aMain;
   aShutdownReturns None].

(** The defaults with a certificate file and no key file. *)
Definition certOnlyConfig : serverCmdConfig :=
  mkServerCmdConfig "localhost:8080" "cert.pem" EmptyString EmptyString
                    "go" 0 [] "caches" "/tmp" false
                    (30 * time.Second) (10 * time.Minute) (10 * time.Second).

(** The defaults with a path prefix, the fetch timeout kept. *)
Definition prefixedConfig : serverCmdConfig :=
  mkServerCmdConfig "localhost:8080" EmptyString EmptyString "/proxy"
                    "go" 0 [] "caches" "/tmp" false
                    (30 * time.Second) (10 * time.Minute) (10 * time.Second).

(** * Properties *)

Example windows_volume_drive : windows.VolumeName "C:\mod\info" = "C:".
Proof. reflexivity. Qed.

Example windows_volume_unc :
  windows.VolumeName "\\host\share\mod" = "\\host\share".
Proof. reflexivity. Qed.

Example windows_abs_drive : windows.IsAbs "C:\mod\info" = true.
Proof. reflexivity. Qed.

Example windows_rel_drive : windows.IsAbs "C:mod" = false.
Proof. reflexivity. Qed.

Example unix_abs : unix.IsAbs "/mod/info" = true ∧ unix.IsAbs "mod/info" = false.
Proof. split; reflexivity. Qed.

(** ** Byte-string lemmas *)

Section StringFacts.

Import strings.

Lemma len_append (p s : string) : len (p +:+ s) = (len p + len s)%nat.
Proof. unfold len. induction p as [|c p IH]; simpl; [done | by rewrite IH]. Qed.

Lemma slice_to_append (p s : string) : slice_to (p +:+ s) (len p) = p.
Proof.
  unfold len. induction p as [|c p IH]; simpl; [by destruct s | by rewrite IH].
Qed.

Lemma slice_from_append (p s : string) : slice_from (p +:+ s) (len p) = Some s.
Proof. unfold len. induction p as [|c p IH]; simpl; done. Qed.

Lemma slice_split (s : string) (n : nat) :
  (n <= len s)%nat →
  ∃ rest, slice_from s n = Some rest ∧ s = slice_to s n +:+ rest.
Proof.
  unfold len. revert s; induction n as [|n IH]; intros s Hn.
  - exists s. by destruct s.
  - destruct s as [|c s]; simpl in *; [lia |].
    destruct (IH s) as (rest & Hrest & Heq); [lia |].
    exists rest. split; [done | exact (f_equal (String c) Heq)].
Qed.

Lemma HasPrefix_append (p s : string) : HasPrefix (p +:+ s) p = true.
Proof.
  unfold HasPrefix. rewrite slice_to_append, String.eqb_refl, len_append.
  rewrite andb_true_r. apply Nat.leb_le. lia.
Qed.

Lemma HasPrefix_split (s p : string) :
  HasPrefix s p = true →
  ∃ rest, s = p +:+ rest ∧ slice_from s (len p) = Some rest.
Proof.
  unfold HasPrefix. intros [Hlen Heq]%andb_true_iff.
  apply Nat.leb_le in Hlen. apply String.eqb_eq in Heq.
  destruct (slice_split s (len p) Hlen) as (rest & Hrest & Hs).
  exists rest. by rewrite Heq in Hs.
Qed.

Lemma TrimPrefix_append (p s : string) : TrimPrefix (p +:+ s) p = s.
Proof.
  unfold TrimPrefix. by rewrite HasPrefix_append, slice_from_append.
Qed.

Lemma TrimPrefix_without (s p : string) :
  HasPrefix s p = false → TrimPrefix s p = s.
Proof. unfold TrimPrefix. by intros ->. Qed.

Lemma len_nonempty (p : string) : p ≠ EmptyString → (0 < len p)%nat.
Proof. unfold len. destruct p; simpl; [done | lia]. Qed.

(** The length test of [StripPrefix]: trimming a non-empty prefix
    shortens the string exactly when the prefix is there. *)
Lemma TrimPrefix_shorter (s p : string) :
  p ≠ EmptyString →
  (len (TrimPrefix s p) <? len s)%nat = HasPrefix s p.
Proof.
  intros Hp. destruct (HasPrefix s p) eqn:Hpre.
  - destruct (HasPrefix_split _ _ Hpre) as (rest & -> & _).
    rewrite TrimPrefix_append, len_append. apply Nat.ltb_lt.
    pose proof (len_nonempty p Hp). lia.
  - rewrite TrimPrefix_without by done. apply Nat.ltb_irrefl.
Qed.

Lemma ReplaceByte_len (s : string) (a b : ascii) :
  len (ReplaceByte s a b) = len s.
Proof. unfold len. induction s as [|c s IH]; simpl; [done | by rewrite IH]. Qed.

Lemma slice_from_one (s : string) :
  slice_from s 1 = None ↔ s = EmptyString.
Proof. destruct s; simpl; split; done. Qed.

End StringFacts.

(** ** The handler chain *)

Lemma bool_decide_ne_true (s : string) :
  s ≠ EmptyString → bool_decide (s = EmptyString) = false.
Proof. intros H. by apply bool_decide_eq_false. Qed.

(** What [http.StripPrefix] does with a request, prefix present. *)
Lemma StripPrefix_match (prefix rest : string) (h : Handler)
    (rw : ResponseWriter) (r : Request) :
  prefix ≠ EmptyString →
  Path r = prefix +:+ rest →
  RawPath r = EmptyString ∨ strings.HasPrefix (RawPath r) prefix = true →
  http.StripPrefix prefix h rw r =
  h rw (mkRequest rest (strings.TrimPrefix (RawPath r) prefix) (reqContext r)).
Proof.
  intros Hp Hpath Hraw. unfold http.StripPrefix.
  rewrite bool_decide_ne_true by done.
  rewrite !TrimPrefix_shorter by done.
  rewrite Hpath, HasPrefix_append, TrimPrefix_append. simpl.
  destruct Hraw as [Hraw | Hraw].
  - by rewrite (bool_decide_eq_true_2 _ Hraw).
  - by rewrite Hraw, orb_true_r.
Qed.

(** What [http.StripPrefix] does with a request, prefix absent. *)
Lemma StripPrefix_mismatch (prefix : string) (h : Handler)
    (rw : ResponseWriter) (r : Request) :
  prefix ≠ EmptyString →
  strings.HasPrefix (Path r) prefix = false
  ∨ (RawPath r ≠ EmptyString ∧ strings.HasPrefix (RawPath r) prefix = false) →
  http.StripPrefix prefix h rw r = http.NotFound rw r.
Proof.
  intros Hp Hno. unfold http.StripPrefix.
  rewrite bool_decide_ne_true by done.
  rewrite !TrimPrefix_shorter by done.
  destruct Hno as [-> | [Hraw ->]]; [done |].
  rewrite (bool_decide_eq_false_2 _ Hraw). simpl. by rewrite andb_false_r.
Qed.

Lemma serverHandler_without_timeout (cfg : serverCmdConfig) (g : Handler) :
  fetchTimeout cfg ≤ 0 → serverHandler cfg g = prefixedHandler cfg g.
Proof.
  intros HT. unfold serverHandler.
  destruct (0 <? fetchTimeout cfg) eqn:Hlt; [apply Z.ltb_lt in Hlt; lia | done].
Qed.

Lemma serverHandler_with_timeout (cfg : serverCmdConfig) (g : Handler) :
  0 < fetchTimeout cfg →
  serverHandler cfg g =
  fetchTimeoutHandler (fetchTimeout cfg) (prefixedHandler cfg g).
Proof.
  intros HT. unfold serverHandler.
  by rewrite (proj2 (Z.ltb_lt 0 (fetchTimeout cfg)) HT).
Qed.

(** [context.WithTimeout] with a positive timeout: the child, its
    [CancelFunc] and the timer it arms. *)
Lemma WithTimeout_positive (parent : Context) (d : Duration) (w : World) :
  0 < d →
  ∃ w1,
    context.WithTimeout parent d w
      = (Done (timerCtx (nextTimer w) parent d, nextTimer w), w1)
    ∧ nextTimer w ∈ pending w1
    ∧ cancelled w1 = cancelled w.
Proof.
  intros Hd. unfold context.WithTimeout.
  rewrite (proj2 (Z.ltb_lt 0 d) Hd).
  eexists. split; [reflexivity |]. simpl. split; [set_solver | done].
Qed.

(** C3 as the specification states it fails: with prefix [/proxy], a
    request for [/other] does not reach the proxy handler; the reply is
    404 where the handler itself would have replied 200. The same reply
    meets a request for [/%70roxy/mod/info], whose decoded path begins
    with the prefix while its raw path does not. *)
Lemma strip_prefix_unmatched_not_passed :
  strings.HasPrefix "/other" (pathPrefix proxyConfig) = false
  ∧ serverHandler proxyConfig echoPath 0%nat otherRequest emptyWorld
    ≠ echoPath 0%nat otherRequest emptyWorld
  ∧ responses (snd (serverHandler proxyConfig echoPath 0%nat
                      otherRequest emptyWorld)) !! 0%nat
    = Some (mkResponse 404 notFoundBody)
  ∧ responses (snd (echoPath 0%nat otherRequest emptyWorld)) !! 0%nat
    = Some (mkResponse 200 ("/other" +:+ String "010" EmptyString))
  ∧ strings.HasPrefix "/proxy/mod/info" (pathPrefix proxyConfig) = true
  ∧ responses (snd (serverHandler proxyConfig echoPath 0%nat
                      escapedRequest
                      emptyWorld)) !! 0%nat
    = Some (mkResponse 404 notFoundBody).
Proof.
  split; [reflexivity |].
  split; [| repeat split; vm_compute; reflexivity].
  intros Heq.
  apply (f_equal (λ x, responses (snd x) !! 0%nat)) in Heq.
  vm_compute in Heq. discriminate.
Qed.

(** C3 (amended): with a non-empty path prefix, a request whose path
    begins with the prefix (and whose raw path, when set, begins with it
    too) reaches the proxy handler with the prefix removed from both;
    any other request is not passed on: the handler is skipped and the
    reply is 404 Not Found. *)
Theorem strip_prefix_behaviour (cfg : serverCmdConfig) (g : Handler)
    (rw : ResponseWriter) (r : Request) :
  pathPrefix cfg ≠ EmptyString →
  (∀ rest,
     Path r = pathPrefix cfg +:+ rest →
     RawPath r = EmptyString
     ∨ strings.HasPrefix (RawPath r) (pathPrefix cfg) = true →
     prefixedHandler cfg g rw r =
     g rw (mkRequest rest (strings.TrimPrefix (RawPath r) (pathPrefix cfg))
                     (reqContext r)))
  ∧ (strings.HasPrefix (Path r) (pathPrefix cfg) = false
     ∨ (RawPath r ≠ EmptyString
        ∧ strings.HasPrefix (RawPath r) (pathPrefix cfg) = false) →
     prefixedHandler cfg g rw r = http.NotFound rw r).
Proof.
  intros Hp. unfold prefixedHandler.
  rewrite (bool_decide_eq_true_2 _ Hp). split.
  - intros rest Hpath Hraw. by apply StripPrefix_match.
  - intros Hno. by apply StripPrefix_mismatch.
Qed.

(** The specification's own example: prefix [/proxy], path
    [/proxy/mod/info], and the handler is given [/mod/info]. *)
Lemma strip_prefix_behaviour_witness :
  prefixedHandler proxyConfig echoPath 0%nat proxiedRequest
  = echoPath 0%nat infoRequest.
Proof.
  assert (Hp : pathPrefix proxyConfig ≠ EmptyString) by (simpl; discriminate).
  exact (proj1 (strip_prefix_behaviour proxyConfig echoPath 0%nat
                  proxiedRequest Hp)
               "/mod/info" eq_refl (or_introl eq_refl)).
Defined.



(** C2 as the specification states it fails: when the handler below
    panics, the panic unwinds through the middleware, [cancel] is never
    called and the timer stays armed. *)
Lemma cancel_skipped_on_panic :
  0 < fetchTimeout defaultConfig
  ∧ fst (serverHandler defaultConfig panicking 0%nat
           infoRequest emptyWorld) = Panic "boom"
  ∧ elements (pending (snd (serverHandler defaultConfig panicking 0%nat
                              infoRequest emptyWorld)))
    = [0%nat]
  ∧ cancelled (snd (serverHandler defaultConfig panicking 0%nat
                      infoRequest emptyWorld)) = [].
Proof. repeat split; vm_compute; reflexivity. Qed.

(** C2 (amended): with a fetch timeout above zero, when the handler
    below returns, the middleware calls [cancel] once, right after it,
    and the timer of the derived context is released; when the handler
    below panics, the middleware does not call [cancel]: the panic goes
    on to the caller with the world as the handler left it. *)
Theorem cancel_after_handler (cfg : serverCmdConfig) (g : Handler)
    (rw : ResponseWriter) (req : Request) (w : World) :
  0 < fetchTimeout cfg →
  ∃ w1,
    let id := nextTimer w in
    let ctx := timerCtx id (reqContext req) (fetchTimeout cfg) in
    context.WithTimeout (reqContext req) (fetchTimeout cfg) w = (Done (ctx, id), w1)
    ∧ (∀ w2,
         prefixedHandler cfg g rw (WithContext req ctx) w1 = (Done (), w2) →
         ∃ w3,
           serverHandler cfg g rw req w = (Done (), w3)
           ∧ (id ∉ pending w3)
           ∧ cancelled w3 = (id :: cancelled w2))
    ∧ (∀ v w2,
         prefixedHandler cfg g rw (WithContext req ctx) w1 = (Panic v, w2) →
         serverHandler cfg g rw req w = (Panic v, w2)).
Proof.
  intros HT.
  destruct (WithTimeout_positive (reqContext req) (fetchTimeout cfg) w HT)
    as (w1 & Hwt & _ & _).
  exists w1. cbv zeta. split; [done |].
  rewrite serverHandler_with_timeout by done.
  unfold fetchTimeoutHandler, mbind, Go_bind, bind. rewrite Hwt.
  split.
  - intros w2 Hh. rewrite Hh. eexists. split; [reflexivity |].
    simpl. split; [| done].
    apply not_elem_of_difference. right. by apply elem_of_singleton.
  - intros v w2 Hh. by rewrite Hh.
Qed.

(** The defaults around a handler that returns. *)
Lemma cancel_after_handler_witness :
  ∃ w1,
    let id := nextTimer emptyWorld in
    let ctx := timerCtx id Background (fetchTimeout defaultConfig) in
    context.WithTimeout Background (fetchTimeout defaultConfig) emptyWorld
      = (Done (ctx, id), w1)
    ∧ (∀ w2,
         prefixedHandler defaultConfig echoPath 0%nat
           (WithContext infoRequest ctx) w1 = (Done (), w2) →
         ∃ w3,
           serverHandler defaultConfig echoPath 0%nat
             infoRequest emptyWorld = (Done (), w3)
           ∧ (id ∉ pending w3)
           ∧ cancelled w3 = (id :: cancelled w2))
    ∧ (∀ v w2,
         prefixedHandler defaultConfig echoPath 0%nat
           (WithContext infoRequest ctx) w1 = (Panic v, w2) →
         serverHandler defaultConfig echoPath 0%nat
           infoRequest emptyWorld = (Panic v, w2)).
Proof.
  apply (cancel_after_handler defaultConfig echoPath 0%nat
           infoRequest emptyWorld).
  reflexivity.
Defined.

(** ** The outbound transport *)

(** C8: building the transport returns a transport, without a panic and
    with the world untouched; its dialer has the configured connect
    timeout and a keep-alive of 30 seconds, its TLS configuration skips
    certificate verification exactly when the insecure flag is set, and
    the [file] protocol is registered with the local file transport. *)
Theorem transport_built (cfg : serverCmdConfig) (w : World) :
  ∃ t,
    serverTransport cfg w = (Done t, w)
    ∧ Timeout (DialContext t) = connectTimeout cfg
    ∧ KeepAlive (DialContext t) = 30 * time.Second
    ∧ (∃ c, TLSClientConfig t = Some c
            ∧ (InsecureSkipVerify c = true ↔ insecure cfg = true))
    ∧ altProto t !! "file" = Some (NewFileTransport httpDirFS).
Proof.
  unfold serverTransport, RegisterProtocol, Clone. simpl.
  rewrite lookup_empty. eexists. split; [reflexivity |]. simpl.
  split; [done |]. split; [done |]. split.
  - exists (mkTlsConfig (insecure cfg)). done.
  - by rewrite lookup_insert_eq.
Qed.

(** ** The local file system *)

Section LocalFileFacts.

Variable P : Platform.

Lemma FromSlash_len (name : string) :
  strings.len (filepath.FromSlash P name) = strings.len name.
Proof.
  unfold filepath.FromSlash.
  destruct (Ascii.eqb (Separator P) slash); [done | apply ReplaceByte_len].
Qed.

Lemma FromSlash_nonempty (name : string) :
  name ≠ EmptyString → ∃ c rest, filepath.FromSlash P name = String c rest.
Proof.
  intros Hne. pose proof (FromSlash_len name) as Hlen.
  destruct (filepath.FromSlash P name) as [|c rest]; [| by eauto].
  destruct name; [done | discriminate].
Qed.

Lemma os_Open_returns (name : string) (w : World) :
  ∃ r, fst (os.Open name w) = Done r.
Proof.
  unfold os.Open. destruct (files w !! name) as [node|]; [| by eauto].
  destruct (readable node); by eauto.
Qed.

Lemma openAbsolute_returns (name : string) (w : World) :
  ∃ r, fst (openAbsolute P name w) = Done r.
Proof.
  unfold openAbsolute. destruct (IsAbs P name); simpl.
  - apply os_Open_returns.
  - by eauto.
Qed.

Lemma openAbsolute_relative (name : string) (w : World) :
  IsAbs P name = false →
  openAbsolute P name w = (Done (inr (errors.New "path is not absolute")), w).
Proof. unfold openAbsolute. by intros ->. Qed.

Lemma openAbsolute_existing (name : string) (node : FileNode) (w : World) :
  IsAbs P name = true →
  files w !! name = Some node →
  readable node = true →
  fst (openAbsolute P name w) = Done (inl (mkFile name (contents node)))
  ∧ opened (snd (openAbsolute P name w)) = name :: opened w.
Proof.
  intros Habs Hfile Hread. unfold openAbsolute, os.Open.
  rewrite Habs. simpl. by rewrite Hfile, Hread.
Qed.

(** [Open] where the separator is a backslash and the converted name
    has a first byte to drop. *)
Lemma Open_backslash (name rest : string) (c : ascii) (w : World) :
  Separator P = backslash →
  filepath.FromSlash P name = String c rest →
  Open P name w =
  if bool_decide (VolumeName P rest = EmptyString)
     || strings.HasPrefix (VolumeName P rest) uncPrefix
  then (Done (inr (errors.New "file URL missing drive letter")), w)
  else openAbsolute P rest w.
Proof.
  intros Hsep Hconv. unfold Open. rewrite Hsep, Hconv. simpl.
  by destruct (bool_decide (VolumeName P rest = EmptyString)
               || strings.HasPrefix (VolumeName P rest) uncPrefix).
Qed.

Lemma Open_other_separator (name : string) (w : World) :
  Separator P ≠ backslash →
  Open P name w = openAbsolute P (filepath.FromSlash P name) w.
Proof.
  intros Hsep. unfold Open.
  destruct (Ascii.eqb (Separator P) backslash) eqn:Heq; [| done].
  by apply Ascii.eqb_eq in Heq.
Qed.

End LocalFileFacts.

Lemma resolved_backslash (P : Platform) (name rname : string) :
  Separator P = backslash →
  resolved P name = Some rname →
  ∃ c, filepath.FromSlash P name = String c rname.
Proof.
  unfold resolved. intros -> Hres. simpl in Hres.
  destruct (filepath.FromSlash _ name) as [|c rest]; [done |].
  exists c. simpl in Hres. congruence.
Qed.

Lemma resolved_other (P : Platform) (name rname : string) :
  Separator P ≠ backslash →
  resolved P name = Some rname →
  filepath.FromSlash P name = rname.
Proof.
  unfold resolved. intros Hsep Hres.
  destruct (Ascii.eqb (Separator P) backslash) eqn:Heq; [| congruence].
  by apply Ascii.eqb_eq in Heq.
Qed.

(** C4 as the specification states it fails: on Windows a path that
    starts with [X], not with a separator, is not refused; its first
    byte is dropped and the file under the drive letter is opened. *)
Lemma open_first_byte_unchecked :
  Separator windows.platform = backslash
  ∧ strings.HasPrefix (filepath.FromSlash windows.platform "XC:/mod/go.mod")
                      (String backslash EmptyString) = false
  ∧ fst (Open windows.platform "XC:/mod/go.mod" diskWorld)
    = Done (inl (mkFile "C:\mod\go.mod" "module example.com/m")).
Proof. repeat split; vm_compute; reflexivity. Qed.

(** C4 (amended): where the separator is a backslash, [Open] drops the
    first byte of the converted path, whatever that byte is, then
    requires of the remainder a non-empty volume name that does not
    begin with two backslashes: if it has none, [Open] returns the error
    "file URL missing drive letter" and leaves the world as it was;
    if it has one, [Open] goes on to the absolute-path test on the
    remainder. *)
Theorem open_drive_letter (P : Platform) (name rest : string) (c : ascii)
    (w : World) :
  Separator P = backslash →
  filepath.FromSlash P name = String c rest →
  (VolumeName P rest = EmptyString
   ∨ strings.HasPrefix (VolumeName P rest) uncPrefix = true →
   Open P name w = (Done (inr (errors.New "file URL missing drive letter")), w))
  ∧ (VolumeName P rest ≠ EmptyString →
     strings.HasPrefix (VolumeName P rest) uncPrefix = false →
     Open P name w = openAbsolute P rest w).
Proof.
  intros Hsep Hconv. rewrite (Open_backslash P name rest c w Hsep Hconv).
  split.
  - intros [Hvol | Hunc].
    + by rewrite (bool_decide_eq_true_2 _ Hvol).
    + by rewrite Hunc, orb_true_r.
  - intros Hvol Hunc. by rewrite (bool_decide_eq_false_2 _ Hvol), Hunc.
Qed.

(** A network share is refused; a drive letter goes on to the
    absolute-path test. *)
Lemma open_drive_letter_witness :
  Open windows.platform "///host/share/mod" diskWorld
    = (Done (inr (errors.New "file URL missing drive letter")), diskWorld)
  ∧ Open windows.platform "/C:/mod/go.mod" diskWorld
    = openAbsolute windows.platform "C:\mod\go.mod" diskWorld.
Proof.
  split.
  - apply (proj1 (open_drive_letter windows.platform "///host/share/mod"
                    "\\host\share\mod" backslash diskWorld eq_refl eq_refl)).
    right. reflexivity.
  - apply (proj2 (open_drive_letter windows.platform "/C:/mod/go.mod"
                    "C:\mod\go.mod" backslash diskWorld eq_refl eq_refl)).
    + vm_compute. discriminate.
    + reflexivity.
Defined.

(** C5 as the specification states it fails: on Windows the empty path
    is not absolute, yet [Open] does not return an error for it: the
    slice of its first byte panics. (A path such as [/C:/mod/go.mod] is
    not absolute as given either, and is opened: what is tested is the
    path less its first byte.) *)
Lemma open_empty_path_panics :
  windows.IsAbs EmptyString = false
  ∧ fst (Open windows.platform EmptyString diskWorld)
    = Panic "slice bounds out of range [1:0]"
  ∧ windows.IsAbs "/C:/mod/go.mod" = false
  ∧ fst (Open windows.platform "/C:/mod/go.mod" diskWorld)
    = Done (inl (mkFile "C:\mod\go.mod" "module example.com/m")).
Proof. repeat split; vm_compute; reflexivity. Qed.

(** C5 (amended): take the resolved name of a path to be the converted
    path, less its first byte where the separator is a backslash (it
    exists for every path but the empty one there). If the resolved name
    is not absolute, [Open] returns an error and leaves the world, the
    record of [os.Open] calls included, as it was. If it is absolute,
    passes the volume-name test where there is one, and names an
    existing readable file, [Open] returns a read handle on exactly that
    file and its bytes. Where the separator is a backslash, a resolved
    name whose volume name begins with two backslashes is always
    refused. *)
Theorem open_resolved_name (P : Platform) (name rname : string) (w : World) :
  resolved P name = Some rname →
  (IsAbs P rname = false →
   ∃ err, Open P name w = (Done (inr err), w))
  ∧ (∀ node,
       IsAbs P rname = true →
       (Separator P = backslash →
        VolumeName P rname ≠ EmptyString
        ∧ strings.HasPrefix (VolumeName P rname) uncPrefix = false) →
       files w !! rname = Some node →
       readable node = true →
       fst (Open P name w) = Done (inl (mkFile rname (contents node)))
       ∧ opened (snd (Open P name w)) = rname :: opened w)
  ∧ (Separator P = backslash →
     strings.HasPrefix (VolumeName P rname) uncPrefix = true →
     Open P name w = (Done (inr (errors.New "file URL missing drive letter")), w)).
Proof.
  intros Hres.
  destruct (decide (Separator P = backslash)) as [Hsep | Hsep].
  - destruct (resolved_backslash P name rname Hsep Hres) as [c Hconv].
    rewrite (Open_backslash P name rname c w Hsep Hconv).
    split; [| split].
    + intros Habs.
      destruct (bool_decide (VolumeName P rname = EmptyString)
                || strings.HasPrefix (VolumeName P rname) uncPrefix);
        [by eauto |].
      rewrite openAbsolute_relative by done. by eauto.
    + intros node Habs Hvol Hfile Hread.
      destruct (Hvol Hsep) as [Hne Hunc].
      rewrite (bool_decide_eq_false_2 _ Hne), Hunc. simpl.
      by apply openAbsolute_existing.
    + intros _ Hunc. by rewrite Hunc, orb_true_r.
  - pose proof (resolved_other P name rname Hsep Hres) as Hconv.
    rewrite (Open_other_separator P name w Hsep), Hconv.
    split; [| split].
    + intros Habs. rewrite openAbsolute_relative by done. by eauto.
    + intros node Habs _ Hfile Hread. by apply openAbsolute_existing.
    + intros Hsep'. done.
Qed.

(** A relative path on Unix, a module file under a drive letter, and a
    network share. *)
Lemma open_resolved_name_witness :
  (∃ err, Open unix.platform "mod/go.mod" diskWorld = (Done (inr err), diskWorld))
  ∧ fst (Open windows.platform "/C:/mod/go.mod" diskWorld)
    = Done (inl (mkFile "C:\mod\go.mod" "module example.com/m"))
  ∧ Open windows.platform "///host/share/mod" diskWorld
    = (Done (inr (errors.New "file URL missing drive letter")), diskWorld).
Proof.
  split; [| split].
  - apply (proj1 (open_resolved_name unix.platform "mod/go.mod" "mod/go.mod"
                    diskWorld eq_refl)).
    reflexivity.
  - refine (proj1 (proj1 (proj2 (open_resolved_name windows.platform
                    "/C:/mod/go.mod" "C:\mod\go.mod" diskWorld eq_refl))
                    (mkFileNode "module example.com/m" true) eq_refl _ _ eq_refl)).
    + intros _. split; [vm_compute; discriminate | reflexivity].
    + vm_compute. reflexivity.
  - apply (proj2 (proj2 (open_resolved_name windows.platform
                    "///host/share/mod" "\\host\share\mod" diskWorld eq_refl)));
      reflexivity.
Defined.

(** C9: where the separator is a backslash, [Open] of the empty path
    panics at the slice of its first byte; on every non-empty path, and
    on every path where the separator is not a backslash, [Open] returns:
    an error or an open file. *)
Theorem open_totality (P : Platform) :
  (Separator P = backslash →
   ∀ w, Open P EmptyString w = (Panic "slice bounds out of range [1:0]", w))
  ∧ (∀ name w, name ≠ EmptyString → ∃ r, fst (Open P name w) = Done r)
  ∧ (Separator P ≠ backslash →
     ∀ name w, ∃ r, fst (Open P name w) = Done r).
Proof.
  split; [| split].
  - intros Hsep w. unfold Open, filepath.FromSlash. rewrite Hsep. simpl. done.
  - intros name w Hne.
    destruct (decide (Separator P = backslash)) as [Hsep | Hsep].
    + destruct (FromSlash_nonempty P name Hne) as (c & rest & Hconv).
      rewrite (Open_backslash P name rest c w Hsep Hconv).
      destruct (bool_decide (VolumeName P rest = EmptyString)
                || strings.HasPrefix (VolumeName P rest) uncPrefix);
        [by eauto | apply openAbsolute_returns].
    + rewrite Open_other_separator by done. apply openAbsolute_returns.
  - intros Hsep name w.
    rewrite Open_other_separator by done. apply openAbsolute_returns.
Qed.

(** The empty path on Windows and on Unix, and a drive-letter path. *)
Lemma open_totality_witness :
  Open windows.platform EmptyString diskWorld
    = (Panic "slice bounds out of range [1:0]", diskWorld)
  ∧ (∃ r, fst (Open windows.platform "/C:/mod/go.mod" diskWorld) = Done r)
  ∧ (∃ r, fst (Open unix.platform EmptyString diskWorld) = Done r).
Proof.
  split; [| split].
  - apply (proj1 (open_totality windows.platform)). reflexivity.
  - apply (proj1 (proj2 (open_totality windows.platform))). discriminate.
  - apply (proj2 (proj2 (open_totality unix.platform))). vm_compute. discriminate.
Defined.

(** ** The supervisor *)

Lemma shutdownContext_prescribed (cfg : serverCmdConfig) (w : World) :
  ∃ ctx cancel w',
    shutdownContext cfg w = (Done (ctx, cancel), w') ∧ prescribed cfg ctx.
Proof.
  unfold shutdownContext, prescribed.
  destruct (0 <? shutdownTimeout cfg) eqn:HG.
  - do 3 eexists. split; [reflexivity | done].
  - do 3 eexists. split; [reflexivity | done].
Qed.

Lemma init_invariant (cfg : serverCmdConfig) (w : World) : invariant cfg (init w).
Proof.
  split; simpl; try done.
  intros _ [? | ?]; done.
Qed.

(** The [inv_stop] field after a step, from the field before it. *)
Ltac keep_stop Hstop :=
  let Hsg := fresh "Hsg" in
  let Hor := fresh "Hor" in
  intros Hsg Hor; simpl in *;
  first [ discriminate Hsg
        | reflexivity
        | apply Hstop; [exact Hsg | first [exact Hor | by left | by right]]
        | specialize (Hstop Hsg Hor); discriminate Hstop ].

Lemma step_invariant (cfg : serverCmdConfig) (s s' : State) (a : Action) :
  invariant cfg s → step cfg s a = Some s' → invariant cfg s'.
Proof.
  destruct s as [m g se sd sg ob tr wd].
  intros [Hassigned Hstop Hobs Hmain] Hstep.
  unfold mainInvariant, shutdownCalls in Hmain. simpl in *.
  destruct a; simpl in Hstep.
  - (* the foreground *)
    unfold stepMain in Hstep; simpl in Hstep.
    destruct m; simpl in *; try done.
    + injection Hstep as <-. destruct Hmain as (-> & -> & Hcalls).
      split; unfold mainInvariant, shutdownCalls; simpl;
        [exact Hassigned | keep_stop Hstop | exact Hobs | done].
    + destruct sd; [| done]. injection Hstep as <-.
      split; unfold mainInvariant, shutdownCalls; simpl;
        [exact Hassigned | keep_stop Hstop | exact Hobs | done].
    + destruct Hmain as (-> & Hcalls).
      destruct (isFatal se) eqn:Hfatal; injection Hstep as <-;
        (split; unfold mainInvariant, shutdownCalls; simpl;
         [exact Hassigned | keep_stop Hstop | by intros _ v [= <-] |]).
      * exists se. by rewrite Hfatal.
      * by exists se.
    + destruct (shutdownContext_prescribed cfg wd) as (ctx & c & w' & Hctx & Hshape).
      rewrite Hctx in Hstep. injection Hstep as <-.
      destruct Hmain as (v & -> & Hfatal & Hcalls).
      split; unfold mainInvariant, shutdownCalls; simpl;
        [exact Hassigned | keep_stop Hstop | exact Hobs |].
      exists v. by rewrite Hcalls.
  - (* the goroutine *)
    unfold stepGo in Hstep; simpl in Hstep.
    destruct g; simpl in *; try done; injection Hstep as <-.
    + split; unfold mainInvariant, shutdownCalls; simpl;
        [exact Hassigned | keep_stop Hstop | exact Hobs |].
      destruct (bool_decide (tlsCertFile cfg ≠ EmptyString)
                && bool_decide (tlsKeyFile cfg ≠ EmptyString));
        destruct m; simpl; try done; by destruct Hmain as (? & _).
    + split; unfold mainInvariant, shutdownCalls; simpl;
        [exact Hassigned | keep_stop Hstop | exact Hobs |].
      destruct m; simpl; try done. by destruct Hmain as (? & _).
  - (* the serve loop returns *)
    destruct g; simpl in *; try done. injection Hstep as <-.
    split; unfold mainInvariant, shutdownCalls; simpl;
      [split; [done | by eauto] | keep_stop Hstop | |].
    + intros Hsg v Hv.
      assert (Hpast : pastWait m = true).
      { destruct m; try done; destruct Hmain as (? & ?); simplify_eq. }
      by specialize (Hstop Hsg (or_intror Hpast)).
    + destruct m; try done. by destruct Hmain as (? & _).
  - (* Shutdown returns *)
    destruct m; simpl in *; try done. injection Hstep as <-.
    destruct Hmain as (v & -> & Hfatal & Hcalls & Hshape).
    split; unfold mainInvariant, shutdownCalls; simpl;
      [exact Hassigned | keep_stop Hstop | exact Hobs |].
    exists v. rewrite Hfatal. by eauto.
  - (* a signal *)
    injection Hstep as <-.
    split; unfold mainInvariant, shutdownCalls; simpl;
      [exact Hassigned | keep_stop Hstop | by intros ? | exact Hmain].
Qed.

Lemma exec_invariant (cfg : serverCmdConfig) (schedule : list Action) :
  ∀ s s', invariant cfg s → exec cfg s schedule = Some s' → invariant cfg s'.
Proof.
  induction schedule as [|a rest IH]; intros s s' Hinv Hexec; simpl in Hexec.
  - by injection Hexec as <-.
  - destruct (step cfg s a) as [s1|] eqn:Hstep; [| done].
    eapply IH; [| exact Hexec]. by eapply step_invariant.
Qed.

Lemma run_invariant (cfg : serverCmdConfig) (w : World) (schedule : list Action)
    (s : State) :
  runServerCmd cfg w schedule = Some s → invariant cfg s.
Proof. apply exec_invariant, init_invariant. Qed.

(** Every call of [server.Shutdown] in a run has the prescribed context. *)
Lemma shutdown_calls_prescribed (cfg : serverCmdConfig) (w : World)
    (schedule : list Action) (s : State) (ctx : Context) :
  runServerCmd cfg w schedule = Some s →
  ctx ∈ shutdownCalls s →
  prescribed cfg ctx.
Proof.
  intros Hrun Hin. destruct (run_invariant _ _ _ _ Hrun) as [_ _ _ Hmain].
  unfold mainInvariant in Hmain.
  destruct (mainPC s).
  - destruct Hmain as (_ & _ & Hcalls).
    rewrite Hcalls in Hin. by apply elem_of_nil in Hin.
  - destruct Hmain as (_ & Hcalls). rewrite Hcalls in Hin. by apply elem_of_nil in Hin.
  - destruct Hmain as (_ & Hcalls). rewrite Hcalls in Hin. by apply elem_of_nil in Hin.
  - destruct Hmain as (v & _ & _ & Hcalls).
    rewrite Hcalls in Hin. by apply elem_of_nil in Hin.
  - destruct Hmain as (v & _ & _ & Hcalls & Hshape). rewrite Hcalls in Hin.
    apply list_elem_of_singleton in Hin. by subst.
  - destruct Hmain as (v & _ & Hcase). destruct (isFatal v).
    + destruct Hcase as [_ Hcalls]. rewrite Hcalls in Hin. by apply elem_of_nil in Hin.
    + destruct Hcase as (ctx' & Hcalls & Hshape). rewrite Hcalls in Hin.
      apply list_elem_of_singleton in Hin. by subst.
  - done.
Qed.

(** [server.Shutdown] is called at most once in a run. *)
Lemma shutdown_at_most_once (cfg : serverCmdConfig) (w : World)
    (schedule : list Action) (s : State) :
  runServerCmd cfg w schedule = Some s →
  (List.length (shutdownCalls s) ≤ 1)%nat.
Proof.
  intros Hrun. destruct (run_invariant _ _ _ _ Hrun) as [_ _ _ Hmain].
  unfold mainInvariant in Hmain.
  destruct (mainPC s); try done.
  - destruct Hmain as (_ & _ & ->). simpl. lia.
  - destruct Hmain as (_ & ->). simpl. lia.
  - destruct Hmain as (_ & ->). simpl. lia.
  - destruct Hmain as (v & _ & _ & ->). simpl. lia.
  - destruct Hmain as (v & _ & _ & -> & _). simpl. lia.
  - destruct Hmain as (v & _ & Hcase). destruct (isFatal v).
    + destruct Hcase as [_ ->]. simpl. lia.
    + destruct Hcase as (ctx & -> & _). simpl. lia.
Qed.

(** A serve loop that fails before any signal: the run returns. *)
Lemma serve_error_run_returns (cfg : serverCmdConfig) (w : World) (e : error) :
  errors.Is e ErrServerClosed = false →
  ∃ s, runServerCmd cfg w [aMain; aGo; aServeReturns e; aGo; aMain; aMain] = Some s
       ∧ returned s = Some (Some e)
       ∧ signalled s = false
       ∧ serverError s = Some e.
Proof.
  intros He. unfold runServerCmd. simpl. unfold stepMain. simpl. rewrite He. simpl.
  eexists. split; [reflexivity | done].
Qed.

(** C1 (amended): in every supervised run in which the foreground, once
    the stop context is done, reads from [serverError] an error other
    than "server closed" (as it does in every run where no signal
    arrived and the serve loop returned that error), that error is what
    [runServerCmd] returns, and it returns it at once: [server.Shutdown]
    is not called in that run. *)
Theorem serve_error_is_result (cfg : serverCmdConfig) (w : World)
    (schedule : list Action) (s : State) (r : option error) (e : error) :
  runServerCmd cfg w schedule = Some s →
  returned s = Some r →
  errors.Is e ErrServerClosed = false →
  observed s = Some (Some e) ∨ (signalled s = false ∧ serverError s = Some e) →
  r = Some e ∧ shutdownCalls s = [].
Proof.
  intros Hrun Hret He Hsaw.
  destruct (run_invariant _ _ _ _ Hrun) as [_ _ Hobs Hmain].
  unfold mainInvariant in Hmain. unfold returned in Hret.
  destruct (mainPC s); try done. injection Hret as ->.
  destruct Hmain as (v & Hv & Hcase).
  assert (v = Some e) as ->.
  { destruct Hsaw as [Hsaw | [Hsg Hse]]; [congruence |].
    rewrite <- Hse. symmetry. by apply Hobs. }
  simpl in Hcase. rewrite He in Hcase. simpl in Hcase. done.
Qed.

(** The serve loop fails to bind: the error is returned and nothing is
    shut down. *)
Lemma serve_error_is_result_witness :
  ∃ s, runServerCmd defaultConfig emptyWorld bindFailure = Some s
       ∧ returned s = Some (Some errAddrInUse)
       ∧ Some errAddrInUse = Some errAddrInUse ∧ shutdownCalls s = [].
Proof.
  eexists. split; [vm_compute; reflexivity |]. split; [vm_compute; reflexivity |].
  refine (serve_error_is_result defaultConfig emptyWorld bindFailure _
            (Some errAddrInUse) errAddrInUse _ _ _ _).
  - vm_compute; reflexivity.
  - vm_compute; reflexivity.
  - vm_compute; reflexivity.
  - left. vm_compute; reflexivity.
Defined.



(** C10: the tests are strict, so a fetch timeout of zero or below
    installs no deadline wrapper (the installed handler is the handler
    below, which gets each request as it came), and with a shutdown
    timeout of zero or below the context built for, and given to,
    [server.Shutdown] is the background context, without a deadline. *)
Theorem nonpositive_timeouts (cfg : serverCmdConfig) :
  (fetchTimeout cfg ≤ 0 → ∀ g, serverHandler cfg g = prefixedHandler cfg g)
  ∧ (shutdownTimeout cfg ≤ 0 →
     (∀ w, shutdownContext cfg w = (Done (Background, None), w))
     ∧ ∀ w schedule s ctx,
         runServerCmd cfg w schedule = Some s →
         ctx ∈ shutdownCalls s →
         ctx = Background).
Proof.
  split.
  - intros HT g. by apply serverHandler_without_timeout.
  - intros HG.
    assert (Hltb : (0 <? shutdownTimeout cfg) = false) by (apply Z.ltb_ge; lia).
    split.
    + intros w. unfold shutdownContext. by rewrite Hltb.
    + intros w schedule s ctx Hrun Hin.
      pose proof (shutdown_calls_prescribed _ _ _ _ _ Hrun Hin) as Hshape.
      unfold prescribed in Hshape. by rewrite Hltb in Hshape.
Qed.

(** Negative fetch and shutdown timeouts. *)
Lemma nonpositive_timeouts_witness :
  serverHandler negativeConfig echoPath = prefixedHandler negativeConfig echoPath
  ∧ shutdownContext negativeConfig emptyWorld = (Done (Background, None), emptyWorld)
  ∧ ∃ s, runServerCmd negativeConfig emptyWorld signalThenShutdown = Some s
         ∧ shutdownCalls s = [Background]
         ∧ Background = Background.
Proof.
  assert (HT : fetchTimeout negativeConfig ≤ 0) by (vm_compute; discriminate).
  assert (HG : shutdownTimeout negativeConfig ≤ 0) by (vm_compute; discriminate).
  split; [| split].
  - apply (proj1 (nonpositive_timeouts negativeConfig) HT).
  - apply (proj1 (proj2 (nonpositive_timeouts negativeConfig) HG)).
  - eexists. split; [vm_compute; reflexivity |]. split; [vm_compute; reflexivity |].
    refine (proj2 (proj2 (nonpositive_timeouts negativeConfig) HG)
              emptyWorld signalThenShutdown _ Background _ _).
    + vm_compute; reflexivity.
    + vm_compute; apply list_elem_of_here.
Defined.

(** C1 as the specification states it fails: when the serve loop fails
    to bind, [runServerCmd] returns that error, and the run holds no
    call of [server.Shutdown]. *)
Lemma serve_error_skips_shutdown :
  serverError <$> runServerCmd defaultConfig emptyWorld bindFailure
    = Some (Some errAddrInUse)
  ∧ errors.Is errAddrInUse ErrServerClosed = false
  ∧ returned <$> runServerCmd defaultConfig emptyWorld bindFailure
    = Some (Some (Some errAddrInUse))
  ∧ shutdownCalls <$> runServerCmd defaultConfig emptyWorld bindFailure = Some [].
Proof. repeat split; vm_compute; reflexivity. Qed.

(** * Further properties *)

(** ** More on the local file system *)




(** X2: once the resolved name has passed the tests, [Open] is
    [os.Open] on that name: result and world are those of the file
    system, so a missing or unreadable file gives the error of
    [os.Open], unchanged. *)
Theorem open_delegates (P : Platform) (name n : string) (w : World) :
  resolved P name = Some n →
  IsAbs P n = true →
  (Separator P = backslash →
   VolumeName P n ≠ EmptyString
   ∧ strings.HasPrefix (VolumeName P n) uncPrefix = false) →
  Open P name w = os.Open n w
  ∧ (files w !! n = None → ∃ err, fst (Open P name w) = Done (inr err))
  ∧ (∀ node, files w !! n = Some node → readable node = false →
     ∃ err, fst (Open P name w) = Done (inr err)).
Proof.
  intros Hres Habs Hvol.
  assert (Heq : Open P name w = os.Open n w).
  { destruct (decide (Separator P = backslash)) as [Hsep | Hsep].
    - destruct (resolved_backslash P name n Hsep Hres) as [c Hconv].
      rewrite (Open_backslash P name n c w Hsep Hconv).
      destruct (Hvol Hsep) as [Hne Hunc].
      rewrite (bool_decide_eq_false_2 _ Hne), Hunc. simpl.
      unfold openAbsolute. by rewrite Habs.
    - rewrite (Open_other_separator P name w Hsep).
      rewrite (resolved_other P name n Hsep Hres).
      unfold openAbsolute. by rewrite Habs. }
  rewrite Heq. split; [done |]. unfold os.Open. split.
  - intros Hnone. rewrite Hnone. by eauto.
  - intros node Hsome Hread. rewrite Hsome, Hread. by eauto.
Qed.

(** A module file that is not there, under a Unix root. *)
Lemma open_delegates_witness :
  Open unix.platform "/mod/missing" diskWorld = os.Open "/mod/missing" diskWorld
  ∧ ∃ err, fst (Open unix.platform "/mod/missing" diskWorld) = Done (inr err).
Proof.
  assert (Hsep : Separator unix.platform = backslash →
                 VolumeName unix.platform "/mod/missing" ≠ EmptyString
                 ∧ strings.HasPrefix (VolumeName unix.platform "/mod/missing")
                                     uncPrefix = false)
    by (vm_compute; discriminate).
  pose proof (open_delegates unix.platform "/mod/missing" "/mod/missing"
                diskWorld eq_refl eq_refl Hsep) as (Heq & Hnone & _).
  split; [exact Heq |]. apply Hnone. vm_compute. reflexivity.
Defined.

Lemma ReplaceByte_idem (s : string) (old new : ascii) :
  new ≠ old →
  strings.ReplaceByte (strings.ReplaceByte s old new) old new
  = strings.ReplaceByte s old new.
Proof.
  intros Hne. induction s as [|c s IH]; simpl; [done |].
  rewrite IH. f_equal.
  destruct (Ascii.eqb c old) eqn:Hc.
  - destruct (Ascii.eqb new old) eqn:Hn; [by apply Ascii.eqb_eq in Hn | done].
  - by rewrite Hc.
Qed.

Lemma FromSlash_idem (P : Platform) (name : string) :
  filepath.FromSlash P (filepath.FromSlash P name) = filepath.FromSlash P name.
Proof.
  unfold filepath.FromSlash.
  destruct (Ascii.eqb (Separator P) slash) eqn:Hsep; [done |].
  apply ReplaceByte_idem. intros Heq. rewrite Heq in Hsep.
  by rewrite Ascii.eqb_refl in Hsep.
Qed.

(** X3: [Open] does not tell a path from its converted form: writing
    the host separator where the path has slashes changes neither the
    result nor the world. *)
Theorem open_separator_insensitive (P : Platform) (name : string) (w : World) :
  Open P (filepath.FromSlash P name) w = Open P name w.
Proof. unfold Open. by rewrite FromSlash_idem. Qed.

Lemma isLetter_not_separator (d : ascii) :
  isLetter d = true →
  Ascii.eqb d slash = false ∧ Ascii.eqb d backslash = false.
Proof.
  destruct d as [[] [] [] [] [] [] [] []]; intros H;
    first [discriminate H | split; reflexivity].
Qed.

(** The volume name and the absoluteness of a path that starts with a
    drive letter, a colon and a backslash. *)
Lemma windows_drive_path (d : ascii) (rest : string) :
  isLetter d = true →
  windows.VolumeName (String d (String ":" (String backslash rest)))
  = String d (String ":" EmptyString)
  ∧ windows.IsAbs (String d (String ":" (String backslash rest))) = true.
Proof.
  intros Hd. destruct (isLetter_not_separator d Hd) as [Hslash Hback].
  assert (Hlen : windows.volumeNameLen (String d (String ":" (String backslash rest)))
                 = 2%nat) by reflexivity.
  split.
  - unfold windows.VolumeName. rewrite Hlen. simpl.
    unfold windows.FromSlash. simpl. by rewrite Hslash.
  - unfold windows.IsAbs. rewrite Hlen. simpl.
    unfold windows.isSlash, windows.byteAt. simpl.
    by rewrite Hslash, Hback.
Qed.

(** X4: on Windows a path made of any first byte, a drive letter, a
    colon, a slash and a remainder is opened as the drive letter, the
    colon, a backslash and the remainder with its slashes turned into
    backslashes: [Open] is [os.Open] on that name. *)
Theorem open_windows_drive (c d : ascii) (rest : string) (w : World) :
  isLetter d = true →
  Open windows.platform (String c (String d (String ":" (String slash rest)))) w
  = os.Open (String d (String ":" (String backslash (windows.FromSlash rest)))) w.
Proof.
  intros Hd. destruct (isLetter_not_separator d Hd) as [Hslash Hback].
  destruct (windows_drive_path d (windows.FromSlash rest) Hd) as [Hvol Habs].
  rewrite (Open_backslash windows.platform _
             (String d (String ":" (String backslash (windows.FromSlash rest))))
             (if Ascii.eqb c slash then backslash else c) w eq_refl).
  - change (VolumeName windows.platform) with windows.VolumeName.
    rewrite Hvol.
    assert (Hunc : strings.HasPrefix (String d (String ":" EmptyString)) uncPrefix
                   = false).
    { unfold strings.HasPrefix, uncPrefix. simpl. by rewrite Hback. }
    rewrite Hunc. simpl. unfold openAbsolute.
    change (IsAbs windows.platform) with windows.IsAbs. by rewrite Habs.
  - unfold filepath.FromSlash. simpl. by rewrite Hslash.
Qed.

(** The file URL path [/C:/mod/go.mod]. *)
Lemma open_windows_drive_witness :
  Open windows.platform "/C:/mod/go.mod" diskWorld
  = os.Open "C:\mod\go.mod" diskWorld.
Proof.
  apply (open_windows_drive "/" "C" "mod/go.mod" diskWorld). reflexivity.
Defined.

(** ** More on the handler chain *)

(** The installed handler under a fetch timeout, step by step. *)
Lemma serverHandler_deadline_run (cfg : serverCmdConfig) (g : Handler)
    (rw : ResponseWriter) (r : Request) (w : World) :
  0 < fetchTimeout cfg →
  ∃ w1,
    context.WithTimeout (reqContext r) (fetchTimeout cfg) w
      = (Done (timerCtx (nextTimer w) (reqContext r) (fetchTimeout cfg),
               nextTimer w), w1)
    ∧ responses w1 = responses w
    ∧ files w1 = files w
    ∧ opened w1 = opened w
    ∧ cancelled w1 = cancelled w
    ∧ serverHandler cfg g rw r w
      = (prefixedHandler cfg g rw
           (WithContext r (timerCtx (nextTimer w) (reqContext r) (fetchTimeout cfg)));;
         context.cancel (nextTimer w)) w1.
Proof.
  intros HT. rewrite serverHandler_with_timeout by done.
  unfold fetchTimeoutHandler, context.WithTimeout, mbind, Go_bind, bind.
  eexists. split; [reflexivity |]. done.
Qed.

(** X5: with a path prefix and a fetch timeout both set, a request under
    the prefix reaches the proxy handler once, with the prefix removed
    and with the derived context at the same time; [cancel] follows. *)
Theorem prefix_and_deadline_compose (cfg : serverCmdConfig) (g : Handler)
    (rw : ResponseWriter) (r : Request) (w : World) (rest : string) :
  pathPrefix cfg ≠ EmptyString →
  0 < fetchTimeout cfg →
  Path r = pathPrefix cfg +:+ rest →
  RawPath r = EmptyString
  ∨ strings.HasPrefix (RawPath r) (pathPrefix cfg) = true →
  ∃ w1,
    context.WithTimeout (reqContext r) (fetchTimeout cfg) w
      = (Done (timerCtx (nextTimer w) (reqContext r) (fetchTimeout cfg),
               nextTimer w), w1)
    ∧ serverHandler cfg g rw r w
      = (g rw (mkRequest rest
                 (strings.TrimPrefix (RawPath r) (pathPrefix cfg))
                 (timerCtx (nextTimer w) (reqContext r) (fetchTimeout cfg)));;
         context.cancel (nextTimer w)) w1.
Proof.
  intros Hp HT Hpath Hraw.
  destruct (serverHandler_deadline_run cfg g rw r w HT)
    as (w1 & Hwt & _ & _ & _ & _ & Hrun).
  exists w1. split; [done |]. rewrite Hrun.
  unfold prefixedHandler. rewrite (bool_decide_eq_true_2 _ Hp).
  by rewrite (StripPrefix_match (pathPrefix cfg) rest g rw
                (WithContext r _) Hp Hpath Hraw).
Qed.

(** The specification's path under the defaults with a prefix. *)
Lemma prefix_and_deadline_compose_witness :
  ∃ w1,
    context.WithTimeout Background (fetchTimeout prefixedConfig) emptyWorld
      = (Done (timerCtx 0%nat Background (fetchTimeout prefixedConfig), 0%nat), w1)
    ∧ serverHandler prefixedConfig echoPath 0%nat proxiedRequest emptyWorld
      = (echoPath 0%nat
           (mkRequest "/mod/info" EmptyString
                      (timerCtx 0%nat Background (fetchTimeout prefixedConfig)));;
         context.cancel 0%nat) w1.
Proof.
  assert (Hp : pathPrefix prefixedConfig ≠ EmptyString) by (simpl; discriminate).
  exact (prefix_and_deadline_compose prefixedConfig echoPath 0%nat proxiedRequest
           emptyWorld "/mod/info" Hp eq_refl eq_refl (or_introl eq_refl)).
Defined.

(** X6: with a path prefix and a fetch timeout both set, a request whose
    path lacks the prefix never reaches the proxy handler, whatever that
    handler is: the reply is 404, and the timer armed for the request
    has been cancelled when the installed handler returns. *)
Theorem unmatched_under_deadline (cfg : serverCmdConfig) (g : Handler)
    (rw : ResponseWriter) (r : Request) (w : World) :
  pathPrefix cfg ≠ EmptyString →
  0 < fetchTimeout cfg →
  strings.HasPrefix (Path r) (pathPrefix cfg) = false →
  (∀ g', serverHandler cfg g' rw r w = serverHandler cfg g rw r w)
  ∧ fst (serverHandler cfg g rw r w) = Done ()
  ∧ responses (snd (serverHandler cfg g rw r w)) !! rw
    = Some (mkResponse http.StatusNotFound notFoundBody)
  ∧ (nextTimer w ∉ pending (snd (serverHandler cfg g rw r w)))
  ∧ cancelled (snd (serverHandler cfg g rw r w)) = nextTimer w :: cancelled w.
Proof.
  intros Hp HT Hno.
  assert (Hrun : ∀ h, serverHandler cfg h rw r w
                      = (http.NotFound rw
                           (WithContext r (timerCtx (nextTimer w) (reqContext r)
                                             (fetchTimeout cfg)));;
                         context.cancel (nextTimer w))
                          (snd (context.WithTimeout (reqContext r)
                                  (fetchTimeout cfg) w))).
  { intros h.
    destruct (serverHandler_deadline_run cfg h rw r w HT)
      as (w1 & Hwt & _ & _ & _ & _ & Hrun).
    rewrite Hrun, Hwt. simpl snd.
    unfold prefixedHandler. rewrite (bool_decide_eq_true_2 _ Hp).
    by rewrite (StripPrefix_mismatch (pathPrefix cfg) h rw (WithContext r _) Hp
                  (or_introl Hno)). }
  split; [intros g'; by rewrite !Hrun |].
  rewrite Hrun.
  unfold http.NotFound, http.Error, context.cancel, context.WithTimeout,
    mbind, Go_bind, bind. simpl.
  split; [done |]. split; [by rewrite lookup_insert_eq |]. split; [| done].
  apply not_elem_of_difference. right. by apply elem_of_singleton.
Qed.

(** A request for [/other] under the defaults with a prefix. *)
Lemma unmatched_under_deadline_witness :
  (∀ g', serverHandler prefixedConfig g' 0%nat otherRequest emptyWorld
         = serverHandler prefixedConfig panicking 0%nat otherRequest emptyWorld)
  ∧ fst (serverHandler prefixedConfig panicking 0%nat otherRequest emptyWorld)
    = Done ()
  ∧ responses (snd (serverHandler prefixedConfig panicking 0%nat otherRequest
                      emptyWorld)) !! 0%nat
    = Some (mkResponse http.StatusNotFound notFoundBody)
  ∧ (nextTimer emptyWorld
     ∉ pending (snd (serverHandler prefixedConfig panicking 0%nat otherRequest
                       emptyWorld)))
  ∧ cancelled (snd (serverHandler prefixedConfig panicking 0%nat otherRequest
                      emptyWorld)) = nextTimer emptyWorld :: cancelled emptyWorld.
Proof.
  assert (Hp : pathPrefix prefixedConfig ≠ EmptyString) by (simpl; discriminate).
  exact (unmatched_under_deadline prefixedConfig panicking 0%nat otherRequest
           emptyWorld Hp eq_refl eq_refl).
Defined.

(** X7: the deadline layer adds nothing of its own to a request's
    outcome: the installed handler returns or panics exactly as the
    handler below does, and leaves the replies, the file system and the
    record of opened files as that handler left them. *)
Theorem deadline_layer_transparent (cfg : serverCmdConfig) (g : Handler)
    (rw : ResponseWriter) (r : Request) (w : World) :
  0 < fetchTimeout cfg →
  ∃ ctx w1,
    context.WithTimeout (reqContext r) (fetchTimeout cfg) w = (Done (ctx, nextTimer w), w1)
    ∧ responses w1 = responses w ∧ files w1 = files w ∧ opened w1 = opened w
    ∧ fst (serverHandler cfg g rw r w)
      = fst (prefixedHandler cfg g rw (WithContext r ctx) w1)
    ∧ responses (snd (serverHandler cfg g rw r w))
      = responses (snd (prefixedHandler cfg g rw (WithContext r ctx) w1))
    ∧ files (snd (serverHandler cfg g rw r w))
      = files (snd (prefixedHandler cfg g rw (WithContext r ctx) w1))
    ∧ opened (snd (serverHandler cfg g rw r w))
      = opened (snd (prefixedHandler cfg g rw (WithContext r ctx) w1)).
Proof.
  intros HT.
  destruct (serverHandler_deadline_run cfg g rw r w HT)
    as (w1 & Hwt & Hresp & Hfiles & Hopened & _ & Hrun).
  eexists _, w1. split; [exact Hwt |].
  split; [done |]. split; [done |]. split; [done |].
  rewrite Hrun. unfold mbind, Go_bind, bind.
  destruct (prefixedHandler cfg g rw _ w1) as [[[] | v] w2]; done.
Qed.

(** The defaults around a handler that replies. *)
Lemma deadline_layer_transparent_witness :
  ∃ ctx w1,
    context.WithTimeout Background (fetchTimeout defaultConfig) emptyWorld
      = (Done (ctx, nextTimer emptyWorld), w1)
    ∧ responses w1 = responses emptyWorld ∧ files w1 = files emptyWorld
    ∧ opened w1 = opened emptyWorld
    ∧ fst (serverHandler defaultConfig echoPath 0%nat infoRequest emptyWorld)
      = fst (prefixedHandler defaultConfig echoPath 0%nat
               (WithContext infoRequest ctx) w1)
    ∧ responses (snd (serverHandler defaultConfig echoPath 0%nat infoRequest emptyWorld))
      = responses (snd (prefixedHandler defaultConfig echoPath 0%nat
                          (WithContext infoRequest ctx) w1))
    ∧ files (snd (serverHandler defaultConfig echoPath 0%nat infoRequest emptyWorld))
      = files (snd (prefixedHandler defaultConfig echoPath 0%nat
                      (WithContext infoRequest ctx) w1))
    ∧ opened (snd (serverHandler defaultConfig echoPath 0%nat infoRequest emptyWorld))
      = opened (snd (prefixedHandler defaultConfig echoPath 0%nat
                       (WithContext infoRequest ctx) w1)).
Proof.
  exact (deadline_layer_transparent defaultConfig echoPath 0%nat infoRequest
           emptyWorld eq_refl).
Defined.

(** ** More on the supervisor *)

Lemma exec_app (cfg : serverCmdConfig) (first rest : list Action) :
  ∀ s, exec cfg s (first ++ rest)
       = match exec cfg s first with
         | Some s' => exec cfg s' rest
         | None => None
         end.
Proof.
  induction first as [|a first IH]; intros s; simpl; [done |].
  destruct (step cfg s a); [apply IH | done].
Qed.

(** An invariant of single steps is an invariant of runs. *)
Lemma exec_preserves (cfg : serverCmdConfig) (I : State → Prop) :
  (∀ s s' a, I s → step cfg s a = Some s' → I s') →
  ∀ schedule s s', I s → exec cfg s schedule = Some s' → I s'.
Proof.
  intros Hstep. induction schedule as [|a rest IH]; intros s s' HI Hexec;
    simpl in Hexec.
  - by injection Hexec as <-.
  - destruct (step cfg s a) as [s1|] eqn:Hs; [| done].
    eapply IH; [| exact Hexec]. by eapply Hstep.
Qed.


Lemma listen_step (cfg : serverCmdConfig) (s s' : State) (a : Action) :
  invariant cfg s →
  listenInvariant cfg s → step cfg s a = Some s' → listenInvariant cfg s'.
Proof.
  destruct s as [m g se sd sg ob tr wd]. unfold listenInvariant. simpl.
  intros [_ _ _ Hmain] Hinv Hstep. unfold mainInvariant in Hmain. simpl in Hmain.
  destruct a; simpl in Hstep.
  - unfold stepMain in Hstep. simpl in Hstep.
    destruct m; try done.
    + injection Hstep as <-. simpl. by destruct Hmain as (-> & _).
    + destruct sd; [| done]. by injection Hstep as <-.
    + destruct (isFatal se); by injection Hstep as <-.
    + destruct (shutdownContext cfg wd) as [[[ctx c] | v] w'];
        by injection Hstep as <-.
  - unfold stepGo in Hstep. simpl in Hstep.
    destruct g; try done; injection Hstep as <-; simpl; [| done].
    unfold selectsServe.
    destruct (decide (tlsCertFile cfg = EmptyString)) as [Hcert | Hcert].
    { rewrite (bool_decide_eq_false_2 (tlsCertFile cfg ≠ EmptyString))
        by (intros Hne; by apply Hne).
      simpl. rewrite Hinv. eexists. split; [reflexivity |]. right. by eauto. }
    destruct (decide (tlsKeyFile cfg = EmptyString)) as [Hkey | Hkey].
    { rewrite (bool_decide_eq_false_2 (tlsKeyFile cfg ≠ EmptyString))
        by (intros Hne; by apply Hne).
      rewrite andb_false_r. simpl. rewrite Hinv.
      eexists. split; [reflexivity |]. right. by eauto. }
    rewrite (bool_decide_eq_true_2 _ Hcert), (bool_decide_eq_true_2 _ Hkey).
    simpl. rewrite Hinv. eexists. split; [reflexivity |]. left. by eauto.
  - destruct g; try done. by injection Hstep as <-.
  - destruct m; try done. by injection Hstep as <-.
  - by injection Hstep as <-.
Qed.

Lemma listen_invariant_run (cfg : serverCmdConfig) (w : World)
    (schedule : list Action) (s : State) :
  runServerCmd cfg w schedule = Some s → listenInvariant cfg s.
Proof.
  intros Hrun.
  apply (exec_preserves cfg (λ s, invariant cfg s ∧ listenInvariant cfg s))
    with (schedule := schedule) (s := init w); [| | exact Hrun].
  - intros s1 s2 a [Hinv Hlisten] Hstep. split.
    + by eapply step_invariant.
    + by eapply listen_step.
  - split; [apply init_invariant | done].
Qed.

(** X8: a run makes at most one serve call, and the configuration
    selects it: [ListenAndServeTLS] with the two files when both are
    named, [ListenAndServe] otherwise, so also when only one file is
    named. *)
Theorem serve_call_selected (cfg : serverCmdConfig) (w : World)
    (schedule : list Action) (s : State) :
  runServerCmd cfg w schedule = Some s →
  (List.length (listensIn (trace s)) ≤ 1)%nat
  ∧ ∀ ev, ev ∈ listensIn (trace s) →
      (tlsCertFile cfg ≠ EmptyString ∧ tlsKeyFile cfg ≠ EmptyString
       ∧ ev = evListenAndServeTLS (tlsCertFile cfg) (tlsKeyFile cfg))
      ∨ ((tlsCertFile cfg = EmptyString ∨ tlsKeyFile cfg = EmptyString)
         ∧ ev = evListenAndServe).
Proof.
  intros Hrun. pose proof (listen_invariant_run _ _ _ _ Hrun) as Hinv.
  unfold listenInvariant in Hinv.
  assert (Hcases : listensIn (trace s) = []
                   ∨ ∃ ev, listensIn (trace s) = [ev] ∧ selectsServe cfg ev)
    by (destruct (goPC s); by eauto).
  destruct Hcases as [-> | (ev & -> & Hsel)].
  - split; [simpl; lia |]. intros ev Hin. by apply elem_of_nil in Hin.
  - split; [simpl; lia |]. intros ev' Hin.
    apply list_elem_of_singleton in Hin. by subst.
Qed.

(** A certificate file without a key file: plain HTTP is served. *)
Lemma serve_call_selected_witness :
  ∃ s, runServerCmd certOnlyConfig emptyWorld signalThenShutdown = Some s
       ∧ listensIn (trace s) = [evListenAndServe]
       ∧ (List.length (listensIn (trace s)) ≤ 1)%nat.
Proof.
  eexists. split; [vm_compute; reflexivity |]. split; [vm_compute; reflexivity |].
  refine (proj1 (serve_call_selected certOnlyConfig emptyWorld signalThenShutdown
                   _ _)).
  vm_compute; reflexivity.
Defined.

(** X9: the foreground gets past its wait, and so calls [Shutdown] or
    returns, only after a signal (or the parent context) closed the stop
    context or after the goroutine has assigned the serve loop's error
    and called [stop]. *)
Theorem shutdown_needs_trigger (cfg : serverCmdConfig) (w : World)
    (schedule : list Action) (s : State) :
  runServerCmd cfg w schedule = Some s →
  shutdownCalls s ≠ [] ∨ is_Some (returned s) →
  signalled s = true ∨ (goPC s = gDone ∧ is_Some (serverError s)).
Proof.
  intros Hrun Hpast.
  destruct (run_invariant _ _ _ _ Hrun) as [Hassigned Hstop _ Hmain].
  assert (Hpw : pastWait (mainPC s) = true).
  { unfold mainInvariant, returned in *.
    destruct (mainPC s); try done.
    - destruct Hmain as (_ & _ & Hcalls).
      destruct Hpast as [Hne | [? ?]]; done.
    - destruct Hmain as (_ & Hcalls).
      destruct Hpast as [Hne | [? ?]]; done. }
  destruct (signalled s) eqn:Hsg; [by left |]. right.
  assert (Hdone : goPC s = gDone) by (apply Hstop; [done | by right]).
  split; [done |]. apply Hassigned. by rewrite Hdone.
Qed.

(** The serve loop fails to bind; no signal arrives. *)
Lemma shutdown_needs_trigger_witness :
  ∃ s, runServerCmd defaultConfig emptyWorld bindFailure = Some s
       ∧ (signalled s = true ∨ (goPC s = gDone ∧ is_Some (serverError s))).
Proof.
  eexists. split; [vm_compute; reflexivity |].
  refine (shutdown_needs_trigger defaultConfig emptyWorld bindFailure _ _ _).
  - vm_compute; reflexivity.
  - right. vm_compute. by eexists.
Defined.

Lemma step_after_return (cfg : serverCmdConfig) (s s' : State) (a : Action)
    (r : option error) :
  mainPC s = mReturned r → step cfg s a = Some s' →
  mainPC s' = mReturned r ∧ observed s' = observed s.
Proof.
  destruct s as [m g se sd sg ob tr wd]. simpl. intros -> Hstep.
  destruct a; simpl in Hstep; try done.
  - unfold stepGo in Hstep. simpl in Hstep.
    destruct g; try done; by injection Hstep as <-.
  - destruct g; try done. by injection Hstep as <-.
  - by injection Hstep as <-.
Qed.

Lemma exec_after_return (cfg : serverCmdConfig) (schedule : list Action)
    (r : option error) :
  ∀ s s', mainPC s = mReturned r → exec cfg s schedule = Some s' →
          mainPC s' = mReturned r ∧ observed s' = observed s.
Proof.
  induction schedule as [|a rest IH]; intros s s' Hpc Hexec; simpl in Hexec.
  - by injection Hexec as <-.
  - destruct (step cfg s a) as [s1|] eqn:Hs; [| done].
    destruct (step_after_return _ _ _ _ _ Hpc Hs) as [Hpc1 Hob1].
    destruct (IH _ _ Hpc1 Hexec) as [Hpc' Hob']. split; [done | congruence].
Qed.

Lemma exec_after_panic (cfg : serverCmdConfig) (schedule : list Action)
    (v : string) :
  ∀ s s', mainPC s = mPanicked v → exec cfg s schedule = Some s' →
          mainPC s' = mPanicked v.
Proof.
  induction schedule as [|a rest IH]; intros s s' Hpc Hexec; simpl in Hexec.
  - by injection Hexec as <-.
  - destruct (step cfg s a) as [s1|] eqn:Hs; [| done].
    eapply IH; [| exact Hexec].
    destruct s as [m g se sd sg ob tr wd]. simpl in Hpc. subst m.
    destruct a; simpl in Hs; try done.
    + unfold stepGo in Hs. simpl in Hs.
      destruct g; try done; by injection Hs as <-.
    + destruct g; try done. by injection Hs as <-.
    + by injection Hs as <-.
Qed.

(** Past the test of [serverError], the only way to return is for
    [server.Shutdown] to return. *)
Lemma returns_through_shutdown (cfg : serverCmdConfig) (schedule : list Action)
    (r : option error) :
  ∀ s s',
    mainPC s = mShutdown ∨ (∃ ctx c, mainPC s = mInShutdown ctx c) →
    exec cfg s schedule = Some s' →
    mainPC s' = mReturned r →
    In (aShutdownReturns r) schedule.
Proof.
  induction schedule as [|a rest IH]; intros s s' Hpc Hexec Hret;
    simpl in Hexec.
  - injection Hexec as <-. destruct Hpc as [Hpc | (ctx & c & Hpc)]; congruence.
  - destruct (step cfg s a) as [s1|] eqn:Hs; [| done].
    destruct s as [m g se sd sg ob tr wd]. simpl in Hpc.
    assert (Hnext : (mainPC s1 = mShutdown ∨ (∃ ctx c, mainPC s1 = mInShutdown ctx c))
                    ∨ (∃ v, mainPC s1 = mPanicked v)
                    ∨ (∃ r', a = aShutdownReturns r' ∧ mainPC s1 = mReturned r')).
    { destruct a; simpl in Hs.
      - unfold stepMain in Hs. simpl in Hs.
        destruct Hpc as [-> | (ctx & c & ->)]; [| done].
        destruct (shutdownContext cfg wd) as [[[ctx c] | v] w'];
          injection Hs as <-; simpl; by eauto 6.
      - unfold stepGo in Hs. simpl in Hs.
        destruct g; try done; injection Hs as <-; simpl; by eauto.
      - destruct g; try done. injection Hs as <-. simpl. by eauto.
      - destruct Hpc as [-> | (ctx & c & ->)]; [done |].
        injection Hs as <-. simpl. by eauto 6.
      - injection Hs as <-. simpl. by eauto. }
    destruct Hnext as [Hpc1 | [(v & Hpc1) | (r' & -> & Hpc1)]].
    + right. by eapply IH.
    + pose proof (exec_after_panic _ _ _ _ _ Hpc1 Hexec). congruence.
    + destruct (exec_after_return _ _ _ _ _ Hpc1 Hexec) as [Hpc' _].
      left. congruence.
Qed.

(** Before the test of [serverError], a run returns either at the test,
    on a fatal value, or through [server.Shutdown]. *)
Lemma returns_two_ways (cfg : serverCmdConfig) (schedule : list Action)
    (r : option error) :
  ∀ s s',
    pastWait (mainPC s) = false ∨ mainPC s = mCheck →
    exec cfg s schedule = Some s' →
    mainPC s' = mReturned r →
    (∃ v, observed s' = Some v ∧ isFatal v = true)
    ∨ In (aShutdownReturns r) schedule.
Proof.
  induction schedule as [|a rest IH]; intros s s' Hpc Hexec Hret;
    simpl in Hexec.
  - injection Hexec as <-. rewrite Hret in Hpc. by destruct Hpc.
  - destruct (step cfg s a) as [s1|] eqn:Hs; [| done].
    destruct s as [m g se sd sg ob tr wd]. simpl in Hpc.
    assert (Hnext : (pastWait (mainPC s1) = false ∨ mainPC s1 = mCheck)
                    ∨ mainPC s1 = mShutdown
                    ∨ (∃ v r', observed s1 = Some v ∧ isFatal v = true
                               ∧ mainPC s1 = mReturned r')).
    { destruct a; simpl in Hs.
      - unfold stepMain in Hs. simpl in Hs.
        destruct m; try (by destruct Hpc).
        + injection Hs as <-. simpl. by eauto.
        + destruct sd; [| done]. injection Hs as <-. simpl. by eauto.
        + destruct (isFatal se) eqn:Hfatal; injection Hs as <-; simpl;
            by eauto 8.
      - unfold stepGo in Hs. simpl in Hs.
        destruct g; try done; injection Hs as <-; simpl; by eauto.
      - destruct g; try done. injection Hs as <-. simpl. by eauto.
      - destruct m; try done. by destruct Hpc.
      - injection Hs as <-. simpl. by eauto. }
    destruct Hnext as [Hpc1 | [Hpc1 | (v & r' & Hob & Hfatal & Hpc1)]].
    + destruct (IH _ _ Hpc1 Hexec Hret) as [? | ?]; [by left | by right; right].
    + right. right.
      by eapply returns_through_shutdown; [left | exact Hexec |].
    + destruct (exec_after_return _ _ _ _ _ Hpc1 Hexec) as [_ Hob'].
      left. exists v. by rewrite Hob'.
Qed.

(** X10: when the value the foreground read at its test is nil or an
    error that is, or wraps, "server closed", [server.Shutdown] is called
    exactly once, with the context the configuration prescribes, and
    what [runServerCmd] returns is what that call returned. *)
Theorem shutdown_result_returned (cfg : serverCmdConfig) (w : World)
    (schedule : list Action) (s : State) (r v : option error) :
  runServerCmd cfg w schedule = Some s →
  returned s = Some r →
  observed s = Some v →
  isFatal v = false →
  (∃ ctx, shutdownCalls s = [ctx] ∧ prescribed cfg ctx)
  ∧ In (aShutdownReturns r) schedule.
Proof.
  intros Hrun Hret Hob Hfatal.
  destruct (run_invariant _ _ _ _ Hrun) as [_ _ _ Hmain].
  unfold mainInvariant in Hmain. unfold returned in Hret.
  destruct (mainPC s) eqn:Hpc; try done. injection Hret as ->.
  destruct Hmain as (v' & Hob' & Hcase).
  assert (v' = v) as -> by congruence. rewrite Hfatal in Hcase.
  split; [done |].
  destruct (returns_two_ways cfg schedule r (init w) s) as [(v' & Hv' & Hf) | Hin];
    [by left | exact Hrun | exact Hpc | congruence | done].
Qed.

(** The serve loop ends with a wrapped "server closed" error. *)
Lemma shutdown_result_returned_witness :
  ∃ s, runServerCmd defaultConfig emptyWorld closedThenShutdown = Some s
       ∧ observed s = Some (Some errWrappedClosed)
       ∧ (∃ ctx, shutdownCalls s = [ctx] ∧ prescribed defaultConfig ctx)
       ∧ In (aShutdownReturns None) closedThenShutdown.
Proof.
  eexists. split; [vm_compute; reflexivity |]. split; [vm_compute; reflexivity |].
  refine (shutdown_result_returned defaultConfig emptyWorld closedThenShutdown
            _ None (Some errWrappedClosed) _ _ _ _).
  - vm_compute; reflexivity.
  - vm_compute; reflexivity.
  - vm_compute; reflexivity.
  - vm_compute; reflexivity.
Defined.






(** X12: a serve-loop error can be lost. Whatever the configuration and
    the error, there is a run in which a signal arrives first and the
    serve loop returns the error after the foreground has tested
    [serverError]: the error is assigned, [Shutdown] is called once, and
    [runServerCmd] returns nil. *)
Theorem serve_error_can_be_lost (cfg : serverCmdConfig) (w : World) (e : error) :
  ∃ s, runServerCmd cfg w (errorAfterTest e) = Some s
       ∧ serverError s = Some e
       ∧ observed s = Some None
       ∧ List.length (shutdownCalls s) = 1%nat
       ∧ returned s = Some None.
Proof.
  unfold runServerCmd, errorAfterTest. simpl. unfold stepMain. simpl.
  destruct (shutdownContext_prescribed cfg w) as (ctx & c & w' & Hctx & _).
  rewrite Hctx. simpl.
  destruct (bool_decide (tlsCertFile cfg ≠ EmptyString)
            && bool_decide (tlsKeyFile cfg ≠ EmptyString));
    eexists; (split; [reflexivity |]); done.
Qed.

(** X13: the foreground cannot get stuck. From every state a run
    reaches, a signal where the foreground waits and [Shutdown] returning
    where it is called bring [runServerCmd] to its return. *)
Theorem run_can_finish (cfg : serverCmdConfig) (w : World)
    (schedule : list Action) (s : State) :
  runServerCmd cfg w schedule = Some s →
  ∃ s', runServerCmd cfg w (schedule ++ finish s) = Some s'
        ∧ is_Some (returned s').
Proof.
  intros Hrun. destruct (run_invariant _ _ _ _ Hrun) as [_ _ _ Hmain].
  unfold runServerCmd in *. rewrite exec_app, Hrun.
  destruct s as [m g se sd sg ob tr wd].
  unfold mainInvariant in Hmain. simpl in Hmain.
  destruct (shutdownContext_prescribed cfg wd) as (ctx & c & w' & Hctx & _).
  unfold finish, finishFromCheck. simpl.
  destruct m; try done; simpl; unfold stepMain; simpl.
  - destruct (isFatal se) eqn:Hf; simpl; unfold stepMain; simpl; rewrite Hf.
    + eexists. split; [reflexivity |]. by eexists.
    + simpl. rewrite Hctx. simpl. eexists. split; [reflexivity |]. by eexists.
  - destruct (isFatal se) eqn:Hf; simpl; unfold stepMain; simpl; rewrite Hf.
    + eexists. split; [reflexivity |]. by eexists.
    + simpl. rewrite Hctx. simpl. eexists. split; [reflexivity |]. by eexists.
  - destruct (isFatal se) eqn:Hf; simpl; unfold stepMain; simpl; rewrite Hf.
    + eexists. split; [reflexivity |]. by eexists.
    + simpl. rewrite Hctx. simpl. eexists. split; [reflexivity |]. by eexists.
  - rewrite Hctx. simpl. eexists. split; [reflexivity |]. by eexists.
  - eexists. split; [reflexivity |]. by eexists.
  - eexists. split; [reflexivity |]. by eexists.
Qed.

(** The server is serving and nothing has happened yet. *)
Lemma run_can_finish_witness :
  ∃ s', runServerCmd defaultConfig emptyWorld
          ([aMain; aGo] ++ [aSignal; aMain; aMain; aMain; aShutdownReturns None])
        = Some s'
        ∧ is_Some (returned s').
Proof.
  refine (run_can_finish defaultConfig emptyWorld [aMain; aGo]
            (mkState mWait gServing None false false None [evListenAndServe]
                     emptyWorld) _).
  vm_compute; reflexivity.
Defined.

(** ** More on the transport and the flag defaults *)

(** X14: the transport registers the [file] protocol and no other, so
    [http] and [https] keep their standard round trippers, and the
    settings the command does not name are those of
    [http.DefaultTransport]. *)
Theorem transport_only_file (cfg : serverCmdConfig) (w : World) :
  ∃ t,
    serverTransport cfg w = (Done t, w)
    ∧ (∀ scheme, scheme ≠ "file" → altProto t !! scheme = None)
    ∧ ForceAttemptHTTP2 t = ForceAttemptHTTP2 DefaultTransport
    ∧ MaxIdleConns t = MaxIdleConns DefaultTransport
    ∧ IdleConnTimeout t = IdleConnTimeout DefaultTransport
    ∧ TLSHandshakeTimeout t = TLSHandshakeTimeout DefaultTransport
    ∧ ExpectContinueTimeout t = ExpectContinueTimeout DefaultTransport.
Proof.
  unfold serverTransport, RegisterProtocol, Clone. simpl.
  rewrite lookup_empty. eexists. split; [reflexivity |]. simpl.
  split; [| done]. intros scheme Hne.
  rewrite lookup_insert_ne by done. apply lookup_empty.
Qed.

(** X15: with every flag at its default the server is plain HTTP, each
    request runs under a ten-minute deadline with no prefix stripping in
    between, and a shutdown is given ten seconds. *)
Theorem default_flags (osTempDir : string) (g : Handler) (w : World)
    (schedule : list Action) (s : State) :
  runServerCmd (newServerCmdConfig osTempDir) w schedule = Some s →
  serverHandler (newServerCmdConfig osTempDir) g
    = fetchTimeoutHandler (10 * time.Minute) g
  ∧ (∀ ev, ev ∈ listensIn (trace s) → ev = evListenAndServe)
  ∧ (∀ ctx, ctx ∈ shutdownCalls s →
       parentOf ctx = Some Background
       ∧ timeoutOf ctx = Some (10 * time.Second)).
Proof.
  intros Hrun. split; [reflexivity |]. split.
  - intros ev Hin.
    pose proof (listen_invariant_run _ _ _ _ Hrun) as Hinv.
    unfold listenInvariant in Hinv.
    assert (Hcases : listensIn (trace s) = []
                     ∨ ∃ ev', listensIn (trace s) = [ev']
                              ∧ selectsServe (newServerCmdConfig osTempDir) ev')
      by (destruct (goPC s); by eauto).
    destruct Hcases as [Hnil | (ev' & Hone & Hsel)].
    + rewrite Hnil in Hin. by apply elem_of_nil in Hin.
    + rewrite Hone in Hin. apply list_elem_of_singleton in Hin. subst ev'.
      destruct Hsel as [(Hcert & _) | (_ & ->)]; [| done].
      by destruct Hcert.
  - intros ctx Hin.
    exact (shutdown_calls_prescribed _ _ _ _ _ Hrun Hin).
Qed.

(** A signal under the flag defaults. *)
Lemma default_flags_witness :
  ∃ s, runServerCmd (newServerCmdConfig "/tmp") emptyWorld signalThenShutdown = Some s
       ∧ serverHandler (newServerCmdConfig "/tmp") echoPath
         = fetchTimeoutHandler (10 * time.Minute) echoPath
       ∧ (∀ ev, ev ∈ listensIn (trace s) → ev = evListenAndServe)
       ∧ (∀ ctx, ctx ∈ shutdownCalls s →
            parentOf ctx = Some Background
            ∧ timeoutOf ctx = Some (10 * time.Second)).
Proof.
  eexists. split; [vm_compute; reflexivity |].
  refine (default_flags "/tmp" echoPath emptyWorld signalThenShutdown _ _).
  vm_compute; reflexivity.
Defined.

Lemma written_step (cfg : serverCmdConfig) (e : error) (s s' : State) (a : Action) :
  invariant cfg s ∧ serverError s = Some e →
  step cfg s a = Some s' →
  invariant cfg s' ∧ serverError s' = Some e.
Proof.
  intros [Hinv He] Hstep. split; [by eapply step_invariant |].
  destruct Hinv as [Hassigned _ _ _].
  assert (Hgo : hasAssigned (goPC s) = true) by (apply Hassigned; by eauto).
  destruct s as [m g se sd sg ob tr wd]. simpl in *. subst se.
  destruct a; simpl in Hstep.
  - unfold stepMain in Hstep. simpl in Hstep.
    destruct m; try done.
    + by injection Hstep as <-.
    + destruct sd; [| done]. by injection Hstep as <-.
    + destruct (negb (errors.Is e ErrServerClosed)); by injection Hstep as <-.
    + destruct (shutdownContext cfg wd) as [[[ctx c] | v] w'];
        by injection Hstep as <-.
  - unfold stepGo in Hstep. simpl in Hstep.
    destruct g; try done; by injection Hstep as <-.
  - destruct g; try done.
  - destruct m; try done. by injection Hstep as <-.
  - by injection Hstep as <-.
Qed.

(** X16: [serverError] is written once. After the goroutine has
    assigned the serve loop's error, no step of the foreground, of the
    goroutine or of the environment changes it. *)
Theorem server_error_written_once (cfg : serverCmdConfig) (w : World)
    (first rest : list Action) (s s' : State) (e : error) :
  runServerCmd cfg w first = Some s →
  serverError s = Some e →
  exec cfg s rest = Some s' →
  serverError s' = Some e.
Proof.
  intros Hrun He Hexec.
  apply (exec_preserves cfg (λ s, invariant cfg s ∧ serverError s = Some e)
           (written_step cfg e) rest s s'); [| done].
  split; [by eapply run_invariant | done].
Qed.

(** The bind failure, followed by a signal. *)
Lemma server_error_written_once_witness :
  ∃ s s',
    runServerCmd defaultConfig emptyWorld bindFailure = Some s
    ∧ exec defaultConfig s [aSignal] = Some s'
    ∧ serverError s' = Some errAddrInUse.
Proof.
  eexists _, _. split; [vm_compute; reflexivity |].
  split; [vm_compute; reflexivity |].
  refine (server_error_written_once defaultConfig emptyWorld bindFailure [aSignal]
            _ _ errAddrInUse _ _ _).
  - vm_compute; reflexivity.
  - vm_compute; reflexivity.
  - vm_compute; reflexivity.
Defined.
